(** * DecentraTrust AI: score engine, tier classifier and publication workflow

    A shallow embedding of [ai-engine/score_service.py], [backend/main.py]
    and [backend/oracle_listener.py].

    Numbers.  Python [int] is [Z].  Python [float] is idealised as an exact
    number: the inputs are rationals ([Q]) and every intermediate value of
    the score is an exact real of the shape [q + log10 N] with [q : Q] and
    [N] a positive integer, which is closed under everything the engine does
    ([+], [-] by a rational, [* 3], [min] with a rational) and whose order
    against a rational is decidable in integer arithmetic.  The rounding
    error of binary64 is outside this model: a sum that is not exactly
    representable may round to the other neighbour in the source, and so
    may a magnitude that the breakdown records to two decimals.  What is
    proved of every record is therefore what rounding to nearest preserves
    (order, bounds, which entries exist); the value of a score is stated
    for particular records and for the records on which every operation of
    the source is exact ([exact_in_binary64]).

    The range of binary64 is modelled where a record that meets the
    constraints of the data model can leave it: the true division of two
    ints and the conversion of an int raise [OverflowError] from
    [2^1024 - 2^970] on, the product [success_rate * 20] becomes an
    infinity, and rounding an infinity raises.

    Failure.  A Python exception is a value of [exn]; code that can raise
    returns [result]. *)

From Stdlib Require Import ZArith QArith Qround Qabs Qminmax Qreduction Lqa Lia.
From stdpp Require Import gmap strings pretty.

Local Open Scope Z_scope.

(** ** Exceptions and the error monad *)

Inductive exn : Type :=
| ZeroDivisionError
| ValueError (msg : string)
| OverflowError (msg : string)
| ContractLogicError (msg : string)
| PyException (msg : string).

Inductive result (A : Type) : Type :=
| Ret (a : A)
| Raise (e : exn).

Arguments Ret {A} a.
Arguments Raise {A} e.

#[global] Instance result_ret : MRet result := fun A a => Ret a.

#[global] Instance result_bind : MBind result := fun A B k c =>
  match c with
  | Ret a => k a
  | Raise e => Raise e
  end.

(** ** Exact reals [q + log10 N] *)

Module Real.

Record real : Type := mkReal { rat : Q; arg : positive }.

Definition of_Q (q : Q) : real := mkReal q 1.

(** [log10 N < t], [log10 N <= t] and [log10 N = t] for a rational
    [t = a/b]: compare [N^b] with [10^a]. *)
Definition lt10 (N : positive) (t : Q) : bool :=
  (0 <=? Qnum t) && (Z.pos N ^ Z.pos (Qden t) <? 10 ^ Qnum t).

Definition le10 (N : positive) (t : Q) : bool :=
  (0 <=? Qnum t) && (Z.pos N ^ Z.pos (Qden t) <=? 10 ^ Qnum t).

Definition eq10 (N : positive) (t : Q) : bool :=
  (0 <=? Qnum t) && (Z.pos N ^ Z.pos (Qden t) =? 10 ^ Qnum t).

(** Order of a real against a rational. *)
Definition ltQ (x : real) (r : Q) : bool := lt10 (arg x) (Qred (r - rat x)%Q).
Definition leQ (x : real) (r : Q) : bool := le10 (arg x) (Qred (r - rat x)%Q).
Definition eqQ (x : real) (r : Q) : bool := eq10 (arg x) (Qred (r - rat x)%Q).

Definition add (x y : real) : real :=
  mkReal (rat x + rat y)%Q (arg x * arg y)%positive.

Definition addQ (x : real) (q : Q) : real := mkReal (rat x + q)%Q (arg x).
Definition subQ (x : real) (q : Q) : real := mkReal (rat x - q)%Q (arg x).

(** [x * k] for a positive integer literal [k]. *)
Definition scale (x : real) (k : positive) : real :=
  mkReal (rat x * inject_Z (Z.pos k))%Q (Pos.pow (arg x) k).

(** Python's [min(x, q)]: [q] when [q < x], else [x]. *)
Definition minQ (x : real) (q : Q) : real :=
  if leQ x q then x else of_Q q.

(** Python's [round(x)] on a float: nearest integer, ties to the even one.
    It is the least [k] with [x < k + 1/2], or [x = k + 1/2] and [k] even.
    With [L = log2 N], [3 L / 10 <= log10 N < L + 1]: the search starts at
    [floor (rat x) + 3 L / 10] and needs at most [L + 3] candidates. *)
Definition below (x : real) (k : Z) : bool :=
  ltQ x (inject_Z k + (1 # 2))%Q || (eqQ x (inject_Z k + (1 # 2))%Q && Z.even k).

(** The least [j >= k] with [p j], among [fuel] candidates. *)
Fixpoint search (p : Z -> bool) (fuel : nat) (k : Z) : Z :=
  match fuel with
  | O => k
  | S f => if p k then k else search p f (k + 1)
  end.

Definition round (x : real) : Z :=
  let L := Z.log2 (Z.pos (arg x)) in
  search (below x) (Z.to_nat L + 3) (Qfloor (rat x) + 3 * L / 10).

(** The same rounding on a rational, by its floor. *)
Definition round_half_even_Q (q : Q) : Z :=
  let f := Qfloor q in
  match (q - inject_Z f ?= 1 # 2)%Q with
  | Lt => f
  | Gt => f + 1
  | Eq => if Z.even f then f else f + 1
  end.

(** [k] is a nearest integer to [x], and the even one when [x] is halfway
    between two integers. *)
Definition nearest_even (x : real) (k : Z) : Prop :=
  ltQ x (inject_Z k - (1 # 2))%Q = false /\
  leQ x (inject_Z k + (1 # 2))%Q = true /\
  (eqQ x (inject_Z k - (1 # 2))%Q = true -> Z.even k = true) /\
  (eqQ x (inject_Z k + (1 # 2))%Q = true -> Z.even k = true).

(** Rounding to the nearest integer with ties away from zero, as the
    specification words it: the least [k] with [x < k + 1/2], or
    [x = k + 1/2] and [x] negative. *)
Definition below_away (x : real) (k : Z) : bool :=
  ltQ x (inject_Z k + (1 # 2))%Q
  || (eqQ x (inject_Z k + (1 # 2))%Q && ltQ x 0).

Definition round_half_away (x : real) : Z :=
  let L := Z.log2 (Z.pos (arg x)) in
  search (below_away x) (Z.to_nat L + 3) (Qfloor (rat x) + 3 * L / 10).

(** Python's [round(x, 2)]. *)
Definition round2 (x : real) : Q :=
  (inject_Z (round (scale x 100)) / 100)%Q.

End Real.

(** [math.log10]: a domain error outside the positive numbers. *)
Definition math_log10 (n : Z) : result Real.real :=
  if 0 <? n then Ret (Real.mkReal 0 (Z.to_pos n))
  else Raise (ValueError "math domain error").

(** The least magnitude that binary64 cannot hold: a value of at least
    [2^1024 - 2^970] rounds to [2^1024]. *)
Definition float_overflow : Q := inject_Z (2 ^ 1024 - 2 ^ 970).

(** True division [a / b] of two ints: the quotient, correctly rounded in
    the source and exact here, unless it is beyond binary64. *)
Definition py_div (a b : Z) : result Q :=
  if b =? 0 then Raise ZeroDivisionError
  else
    let q := (inject_Z a / inject_Z b)%Q in
    if Qle_bool float_overflow (Qabs q)
    then Raise (OverflowError "integer division result too large for a float")
    else Ret q.

(** The conversion of an int operand of a float operation. *)
Definition to_float (n : Z) : result Q :=
  if Qle_bool float_overflow (Qabs (inject_Z n))
  then Raise (OverflowError "int too large to convert to float")
  else Ret (inject_Z n).

Definition Qlt_bool (x y : Q) : bool := negb (Qle_bool y x).

(** ** Floats that may be infinite *)

Module Float.

Inductive float : Type :=
| Fin (x : Real.real)
| Inf (negative : bool).

(** [x * 20] for the quotient [x] of two ints.  The source multiplies the
    binary64 value of [x]; the product is infinite exactly when that value
    is at least [7205759403792794 * 2^967], the least double whose product
    with 20 reaches [2^1024 - 2^970], and [x] rounds to that double or
    beyond exactly when [|x| >= 14411518807585587 * 2^966], the midpoint
    below it (a tie there goes to the even mantissa, which is that
    double's). *)
Definition times20_overflow : Q := inject_Z (14411518807585587 * 2 ^ 966).

Definition times20 (x : Q) : float :=
  if Qle_bool times20_overflow (Qabs x) then Inf (Qlt_bool x 0)
  else Fin (Real.of_Q (x * 20)).

(** [x + y] for a finite [x]. *)
Definition add (x : Real.real) (y : float) : float :=
  match y with
  | Fin r => Fin (Real.add x r)
  | Inf s => Inf s
  end.

(** [x + y], [x + q] and [x - q] for finite [y] and [q]. *)
Definition add_real (x : float) (y : Real.real) : float :=
  match x with
  | Fin r => Fin (Real.add r y)
  | Inf s => Inf s
  end.

Definition addQ (x : float) (q : Q) : float :=
  match x with
  | Fin r => Fin (Real.addQ r q)
  | Inf s => Inf s
  end.

Definition subQ (x : float) (q : Q) : float :=
  match x with
  | Fin r => Fin (Real.subQ r q)
  | Inf s => Inf s
  end.

(** [round(x)]. *)
Definition round (x : float) : result Z :=
  match x with
  | Fin r => Ret (Real.round r)
  | Inf _ =>
      Raise (OverflowError "cannot convert float infinity to integer")
  end.

End Float.

(** * ai-engine/score_service.py *)

Module ScoreService.

Record UserMetrics : Type := {
  transaction_count : Z;
  avg_transaction_value : Q;
  account_age_days : Z;
  dispute_count : Z;
  successful_transactions : Z;
  frequency_per_day : Q;
  variance_score : option Q
}.

(** The constraints of the data model: counts and rates non-negative, the
    variance absent or in [0,100]. *)
Definition valid (m : UserMetrics) : Prop :=
  0 <= transaction_count m /\ (0 <= avg_transaction_value m)%Q /\
  0 <= account_age_days m /\ 0 <= dispute_count m /\
  0 <= successful_transactions m /\ (0 <= frequency_per_day m)%Q /\
  match variance_score m with
  | Some v => (0 <= v)%Q /\ (v <= 100)%Q
  | None => True
  end.

(** [calculate_score]: every [score += x] and [score -= x] of the source
    rebinds [score].  The product [years * 10] is exact here: where it is
    [+inf] in the source, [min] gives 15 as for the exact product, and where
    it is [-inf] the age is so far below zero that the division of the
    new-account penalty raises before the score is rounded. *)
Definition calculate_score (metrics : UserMetrics) : result Z :=
  let score := Real.of_Q 50 in
  years ← py_div (account_age_days metrics) 365;
  let age_bonus := Qmin (years * 10) 15 in
  let score := Real.addQ score age_bonus in
  score ←
    (if 0 <? transaction_count metrics then
       success_rate ← py_div (successful_transactions metrics)
                             (transaction_count metrics);
       let success_bonus := Float.times20 success_rate in
       mret (Float.add score success_bonus)
     else mret (Float.Fin score));
  l ← math_log10 (Z.max (transaction_count metrics) 1 + 1);
  let volume_bonus := Real.minQ (Real.scale l 3) 10 in
  let score := Float.add_real score volume_bonus in
  let score :=
    if Qle_bool (1 # 10) (frequency_per_day metrics)
       && Qle_bool (frequency_per_day metrics) 5
    then
      let frequency_bonus :=
        (10 - Qabs (frequency_per_day metrics - 1) * 2)%Q in
      let frequency_bonus := Qmax 0 (Qmin frequency_bonus 10) in
      Float.addQ score frequency_bonus
    else score in
  let score :=
    match variance_score metrics with
    | Some v =>
        if Qlt_bool v 30 then
          let variance_bonus := ((30 - v) / 6)%Q in
          Float.addQ score variance_bonus
        else score
    | None => score
    end in
  let dispute_penalty := Z.min (dispute_count metrics * 5) 30 in
  dispute_penalty ← to_float dispute_penalty;
  let score := Float.subQ score dispute_penalty in
  score ←
    (if account_age_days metrics <? 30 then
       new_account_penalty ← py_div (30 - account_age_days metrics) 3;
       mret (Float.subQ score new_account_penalty)
     else mret score);
  let score :=
    if Qlt_bool 10 (frequency_per_day metrics) then
      let high_freq_penalty :=
        Qmin ((frequency_per_day metrics - 10) * 2) 20 in
      Float.subQ score high_freq_penalty
    else score in
  let score :=
    if Qlt_bool (avg_transaction_value metrics) 10
       && Qlt_bool 5 (frequency_per_day metrics)
    then
      let wash_trading_penalty := 15%Q in
      Float.subQ score wash_trading_penalty
    else score in
  rounded ← Float.round score;
  let final_score := Z.max 0 (Z.min 100 rounded) in
  mret final_score.

Record ScoreDetails : Type := {
  base_score : Z;
  factors : gmap string Q;
  penalties : gmap string Q;
  final_score : Z
}.

Definition round2Q (q : Q) : Q := Real.round2 (Real.of_Q q).

(** [get_score_details]: [details] is the record built at the end, its two
    inner dictionaries are threaded as [d_factors] and [d_penalties].  The
    dispute penalty is an [int], which [round(_, 2)] returns unchanged.  An
    infinite success bonus is recorded as it is by the source; the score is
    then infinite too, the final [round] raises and that breakdown is never
    returned, so the model records nothing for it. *)
Definition get_score_details (metrics : UserMetrics) : result ScoreDetails :=
  let score := Real.of_Q 50 in
  let d_factors : gmap string Q := ∅ in
  let d_penalties : gmap string Q := ∅ in
  years ← py_div (account_age_days metrics) 365;
  let age_bonus := Qmin (years * 10) 15 in
  let d_factors := <["account_age" := round2Q age_bonus]> d_factors in
  let score := Real.addQ score age_bonus in
  '(score, d_factors) ←
    (if 0 <? transaction_count metrics then
       success_rate ← py_div (successful_transactions metrics)
                             (transaction_count metrics);
       let success_bonus := Float.times20 success_rate in
       mret (Float.add score success_bonus,
             match success_bonus with
             | Float.Fin b =>
                 <["success_rate" := Real.round2 b]> d_factors
             | Float.Inf _ => d_factors
             end)
     else mret (Float.Fin score, d_factors));
  l ← math_log10 (Z.max (transaction_count metrics) 1 + 1);
  let volume_bonus := Real.minQ (Real.scale l 3) 10 in
  let d_factors :=
    <["transaction_volume" := Real.round2 volume_bonus]> d_factors in
  let score := Float.add_real score volume_bonus in
  let '(score, d_factors) :=
    if Qle_bool (1 # 10) (frequency_per_day metrics)
       && Qle_bool (frequency_per_day metrics) 5
    then
      let frequency_bonus :=
        (10 - Qabs (frequency_per_day metrics - 1) * 2)%Q in
      let frequency_bonus := Qmax 0 (Qmin frequency_bonus 10) in
      (Float.addQ score frequency_bonus,
       <["frequency" := round2Q frequency_bonus]> d_factors)
    else (score, d_factors) in
  '(score, d_penalties) ←
    (if 0 <? dispute_count metrics then
       let dispute_penalty := Z.min (dispute_count metrics * 5) 30 in
       penalty ← to_float dispute_penalty;
       mret (Float.subQ score penalty,
             <["disputes" := inject_Z dispute_penalty]> d_penalties)
     else mret (score, d_penalties));
  '(score, d_penalties) ←
    (if account_age_days metrics <? 30 then
       new_account_penalty ← py_div (30 - account_age_days metrics) 3;
       mret (Float.subQ score new_account_penalty,
             <["new_account" := round2Q new_account_penalty]> d_penalties)
     else mret (score, d_penalties));
  let '(score, d_penalties) :=
    if Qlt_bool 10 (frequency_per_day metrics) then
      let high_freq_penalty :=
        Qmin ((frequency_per_day metrics - 10) * 2) 20 in
      (Float.subQ score high_freq_penalty,
       <["high_frequency" := round2Q high_freq_penalty]> d_penalties)
    else (score, d_penalties) in
  rounded ← Float.round score;
  let final_score := Z.max 0 (Z.min 100 rounded) in
  mret {| base_score := 50; factors := d_factors;
          penalties := d_penalties; final_score := final_score |}.

(** ** The algorithm as the specification words it

    Each contribution on its own, zero where it does not apply; the sum;
    the final clamp. *)

Definition age_bonus (m : UserMetrics) : Q :=
  Qmin (inject_Z (account_age_days m) / 365 * 10) 15.

Definition success_rate_bonus (m : UserMetrics) : Q :=
  if 0 <? transaction_count m then
    (inject_Z (successful_transactions m) / inject_Z (transaction_count m)
     * 20)%Q
  else 0%Q.

Definition volume_bonus (m : UserMetrics) : Real.real :=
  Real.minQ
    (Real.scale (Real.mkReal 0 (Z.to_pos (Z.max (transaction_count m) 1 + 1)))
                3)
    10.

Definition frequency_bonus (m : UserMetrics) : Q :=
  if Qle_bool (1 # 10) (frequency_per_day m)
     && Qle_bool (frequency_per_day m) 5
  then Qmax 0 (Qmin (10 - Qabs (frequency_per_day m - 1) * 2) 10)
  else 0%Q.

Definition low_variance_bonus (m : UserMetrics) : Q :=
  match variance_score m with
  | Some v => if Qlt_bool v 30 then ((30 - v) / 6)%Q else 0%Q
  | None => 0%Q
  end.

Definition dispute_penalty (m : UserMetrics) : Q :=
  inject_Z (Z.min (dispute_count m * 5) 30).

Definition new_account_penalty (m : UserMetrics) : Q :=
  if account_age_days m <? 30 then
    (inject_Z (30 - account_age_days m) / 3)%Q
  else 0%Q.

Definition high_frequency_penalty (m : UserMetrics) : Q :=
  if Qlt_bool 10 (frequency_per_day m) then
    Qmin ((frequency_per_day m - 10) * 2) 20
  else 0%Q.

Definition wash_trading_penalty (m : UserMetrics) : Q :=
  if Qlt_bool (avg_transaction_value m) 10
     && Qlt_bool 5 (frequency_per_day m)
  then 15%Q else 0%Q.

(** 50 + positive contributions - penalties. *)
Definition score_sum (m : UserMetrics) : Real.real :=
  Real.addQ (volume_bonus m)
    (50 + age_bonus m + success_rate_bonus m + frequency_bonus m
     + low_variance_bonus m
     - dispute_penalty m - new_account_penalty m
     - high_frequency_penalty m - wash_trading_penalty m)%Q.

(** The sum that [get_score_details] accumulates. *)
Definition details_sum (m : UserMetrics) : Real.real :=
  Real.addQ (volume_bonus m)
    (50 + age_bonus m + success_rate_bonus m + frequency_bonus m
     - dispute_penalty m - new_account_penalty m
     - high_frequency_penalty m)%Q.

Definition clamp (k : Z) : Z := Z.max 0 (Z.min 100 k).

(** The breakdown in closed form: what [get_score_details] returns when
    it returns. *)
Definition recorded_factors (m : UserMetrics) : gmap string Q :=
  let f : gmap string Q := <["account_age" := round2Q (age_bonus m)]> ∅ in
  let f :=
    if 0 <? transaction_count m
    then <["success_rate" := round2Q (success_rate_bonus m)]> f else f in
  let f := <["transaction_volume" := Real.round2 (volume_bonus m)]> f in
  if Qle_bool (1 # 10) (frequency_per_day m)
     && Qle_bool (frequency_per_day m) 5
  then <["frequency" := round2Q (frequency_bonus m)]> f else f.

Definition recorded_penalties (m : UserMetrics) : gmap string Q :=
  let p : gmap string Q :=
    if 0 <? dispute_count m
    then <["disputes" := dispute_penalty m]> ∅ else ∅ in
  let p :=
    if account_age_days m <? 30
    then <["new_account" := round2Q (new_account_penalty m)]> p else p in
  if Qlt_bool 10 (frequency_per_day m)
  then <["high_frequency" := round2Q (high_frequency_penalty m)]> p else p.

Definition recorded_sum (m : UserMetrics) : Real.real :=
  Real.addQ (volume_bonus m)
    (50 + age_bonus m + success_rate_bonus m + frequency_bonus m
     - (if 0 <? dispute_count m then dispute_penalty m else 0)
     - new_account_penalty m - high_frequency_penalty m)%Q.

Definition breakdown (m : UserMetrics) : ScoreDetails :=
  {| base_score := 50;
     factors := recorded_factors m;
     penalties := recorded_penalties m;
     final_score := clamp (Real.round (recorded_sum m)) |}.

(** The records on which no quotient, converted int or product leaves
    binary64: exactly those on which [calculate_score] returns. *)
Definition in_float_range (m : UserMetrics) : Prop :=
  (Qabs (inject_Z (account_age_days m) / 365) < float_overflow)%Q /\
  (0 < transaction_count m ->
   (Qabs (inject_Z (successful_transactions m)
          / inject_Z (transaction_count m))
    < Float.times20_overflow)%Q) /\
  (Qabs (inject_Z (Z.min (dispute_count m * 5) 30)) < float_overflow)%Q /\
  (account_age_days m < 30 ->
   (Qabs (inject_Z (30 - account_age_days m) / 3) < float_overflow)%Q).

(** The same for [get_score_details], which converts the dispute penalty
    only when there is a dispute. *)
Definition details_in_float_range (m : UserMetrics) : Prop :=
  (Qabs (inject_Z (account_age_days m) / 365) < float_overflow)%Q /\
  (0 < transaction_count m ->
   (Qabs (inject_Z (successful_transactions m)
          / inject_Z (transaction_count m))
    < Float.times20_overflow)%Q) /\
  (account_age_days m < 30 ->
   (Qabs (inject_Z (30 - account_age_days m) / 3) < float_overflow)%Q).

(** Counts of a magnitude that binary64 holds with room to spare. *)
Definition moderate (m : UserMetrics) : Prop :=
  account_age_days m <= 10 ^ 300 /\
  successful_transactions m <= 10 ^ 300.



(** The record with another account age, every other field kept. *)
Definition with_age (m : UserMetrics) (age : Z) : UserMetrics :=
  {| transaction_count := transaction_count m;
     avg_transaction_value := avg_transaction_value m;
     account_age_days := age;
     dispute_count := dispute_count m;
     successful_transactions := successful_transactions m;
     frequency_per_day := frequency_per_day m;
     variance_score := variance_score m |}.

(** The record with another dispute count, another count of successful
    transactions, another average value. *)
Definition with_disputes (m : UserMetrics) (disputes : Z) : UserMetrics :=
  {| transaction_count := transaction_count m;
     avg_transaction_value := avg_transaction_value m;
     account_age_days := account_age_days m;
     dispute_count := disputes;
     successful_transactions := successful_transactions m;
     frequency_per_day := frequency_per_day m;
     variance_score := variance_score m |}.

Definition with_successful (m : UserMetrics) (successful : Z) : UserMetrics :=
  {| transaction_count := transaction_count m;
     avg_transaction_value := avg_transaction_value m;
     account_age_days := account_age_days m;
     dispute_count := dispute_count m;
     successful_transactions := successful;
     frequency_per_day := frequency_per_day m;
     variance_score := variance_score m |}.

Definition with_avg_value (m : UserMetrics) (value : Q) : UserMetrics :=
  {| transaction_count := transaction_count m;
     avg_transaction_value := value;
     account_age_days := account_age_days m;
     dispute_count := dispute_count m;
     successful_transactions := successful_transactions m;
     frequency_per_day := frequency_per_day m;
     variance_score := variance_score m |}.

(** The three users of the module's own demonstration. *)
Definition high_trust : UserMetrics :=
  {| transaction_count := 200; avg_transaction_value := 500;
     account_age_days := 730; dispute_count := 0;
     successful_transactions := 198; frequency_per_day := 1 # 2;
     variance_score := None |}.

Definition medium_trust : UserMetrics :=
  {| transaction_count := 50; avg_transaction_value := 100;
     account_age_days := 90; dispute_count := 1;
     successful_transactions := 45; frequency_per_day := 1;
     variance_score := None |}.

Definition low_trust : UserMetrics :=
  {| transaction_count := 10; avg_transaction_value := 5;
     account_age_days := 7; dispute_count := 3;
     successful_transactions := 5; frequency_per_day := 15;
     variance_score := None |}.

(** A user whose sum is exactly 88.5: 50 + 10 (age) + 10 (success rate)
    + 10 (volume, capped) + 8.5 (frequency). *)
Definition tie_user : UserMetrics :=
  {| transaction_count := 10000; avg_transaction_value := 100;
     account_age_days := 365; dispute_count := 0;
     successful_transactions := 5000; frequency_per_day := 7 # 4;
     variance_score := None |}.

(** A user to whom both the low-variance bonus (3 points) and the
    wash-trading penalty apply. *)
Definition steady_small_trader : UserMetrics :=
  {| transaction_count := 10; avg_transaction_value := 5;
     account_age_days := 400; dispute_count := 0;
     successful_transactions := 10; frequency_per_day := 6;
     variance_score := Some 12%Q |}.


(** A fresh user without any transaction. *)
Definition no_activity : UserMetrics :=
  {| transaction_count := 0; avg_transaction_value := 0;
     account_age_days := 45; dispute_count := 0;
     successful_transactions := 0; frequency_per_day := 0;
     variance_score := None |}.

End ScoreService.

(** * backend/oracle_listener.py *)

Module OracleListener.

(** The web3 collaborator.  Every call into it either returns or raises;
    what it answers is a parameter of the listener. *)
Record HexBytes : Type := { hex : string }.
Record Account : Type := { address : string }.
Record TxParams : Type := {
  tx_from : string; tx_nonce : Z; tx_gas : Z; tx_gasPrice : Z
}.
Record Tx : Type := { tx_to : string; tx_data : string; tx_params : TxParams }.
Record SignedTx : Type := { raw_transaction : HexBytes }.

Record Eth : Type := {
  get_transaction_count : string -> result Z;
  gas_price : result Z;
  sign_transaction : Tx -> option string -> result SignedTx;
  send_raw_transaction : HexBytes -> result HexBytes;
  wait_for_transaction_receipt : HexBytes -> result (gmap string Z)
}.

Record Web3 : Type := { eth : Eth }.

Record ContractFunction : Type := {
  build_transaction : TxParams -> result Tx
}.

Record Contract : Type := {
  pushScore : string -> Z -> result ContractFunction
}.

Record OracleListener : Type := {
  rpc_url : string;
  oracle_address : option string;
  private_key : option string;
  w3 : option Web3;
  oracle_contract : option Contract;
  account : option Account
}.

(** [try: body except ContractLogicError: ... except Exception: ...] where
    both handlers return [None]. *)
Definition try_except {A : Type} (body : result A) (handler : exn -> result A)
  : result A :=
  match body with
  | Ret a => Ret a
  | Raise e => handler e
  end.

(** Attribute access on [self.w3], which is [None] until [connect]. *)
Definition the_w3 (self : OracleListener) : result Web3 :=
  match w3 self with
  | Some w => Ret w
  | None => Raise (PyException "AttributeError")
  end.

(** [receipt['status']]. *)
Definition getitem (receipt : gmap string Z) (key : string) : result Z :=
  match receipt !! key with
  | Some v => Ret v
  | None => Raise (PyException "KeyError")
  end.

Section PushScore.

(** [Web3.to_checksum_address], a static method of the library. *)
Variable to_checksum_address : string -> result string.

Definition push_score (self : OracleListener) (user_address : string)
    (score : Z) : result (option string) :=
  match oracle_contract self, account self with
  | Some contract, Some acct =>
      try_except
        (if negb ((0 <=? score) && (score <=? 100)) then mret None
         else
           user_address ← to_checksum_address user_address;
           fn ← pushScore contract user_address score;
           w ← the_w3 self;
           nonce ← get_transaction_count (eth w) (address acct);
           w ← the_w3 self;
           price ← gas_price (eth w);
           tx ← build_transaction fn
                 {| tx_from := address acct; tx_nonce := nonce;
                    tx_gas := 100000; tx_gasPrice := price |};
           w ← the_w3 self;
           signed_tx ← sign_transaction (eth w) tx (private_key self);
           w ← the_w3 self;
           tx_hash ← send_raw_transaction (eth w) (raw_transaction signed_tx);
           w ← the_w3 self;
           receipt ← wait_for_transaction_receipt (eth w) tx_hash;
           status ← getitem receipt "status";
           if status =? 1 then mret (Some (hex tx_hash))
           else mret None)
        (fun e =>
           match e with
           | ContractLogicError _ => mret None
           | _ => mret None
           end)
  | _, _ => mret None
  end.

(** The submission was confirmed with transaction hash [h]: the listener
    is configured, the score is in range, every call into web3 returned,
    and the receipt reports status 1. *)
Definition confirmed (self : OracleListener) (user_address : string)
    (score : Z) (h : string) : Prop :=
  exists contract acct checksummed fn w nonce price tx signed_tx tx_hash
         receipt,
    oracle_contract self = Some contract /\
    account self = Some acct /\
    0 <= score <= 100 /\
    to_checksum_address user_address = Ret checksummed /\
    pushScore contract checksummed score = Ret fn /\
    w3 self = Some w /\
    get_transaction_count (eth w) (address acct) = Ret nonce /\
    gas_price (eth w) = Ret price /\
    build_transaction fn
      {| tx_from := address acct; tx_nonce := nonce;
         tx_gas := 100000; tx_gasPrice := price |} = Ret tx /\
    sign_transaction (eth w) tx (private_key self) = Ret signed_tx /\
    send_raw_transaction (eth w) (raw_transaction signed_tx) = Ret tx_hash /\
    wait_for_transaction_receipt (eth w) tx_hash = Ret receipt /\
    receipt !! "status" = Some 1 /\
    h = hex tx_hash.

End PushScore.

(** The listener as [__init__] leaves it when no address and no key are
    given: not connected, no contract, no account. *)
Definition fresh_listener : OracleListener :=
  {| rpc_url := "http://127.0.0.1:8545"; oracle_address := None;
     private_key := None; w3 := None; oracle_contract := None;
     account := None |}.

(** A local node whose receipts carry the given status, a contract on it,
    and a listener connected to both. *)
Definition local_node (status : Z) : Web3 :=
  {| eth :=
       {| get_transaction_count := fun _ => Ret 7;
          gas_price := Ret 1000000000;
          sign_transaction := fun tx _ =>
            Ret {| raw_transaction := {| hex := tx_data tx |} |};
          send_raw_transaction := fun raw => Ret {| hex := "0xfeed" |};
          wait_for_transaction_receipt := fun _ =>
            Ret (<["status" := status]> ∅) |} |}.

Definition oracle_mock : Contract :=
  {| pushScore := fun user score =>
       Ret {| build_transaction := fun params =>
                Ret {| tx_to := "0x5FbDB2315678afecb367f032d93F642f64180aa3";
                       tx_data := user; tx_params := params |} |} |}.

Definition ready_listener (status : Z) : OracleListener :=
  {| rpc_url := "http://127.0.0.1:8545";
     oracle_address := Some "0x5FbDB2315678afecb367f032d93F642f64180aa3";
     private_key := Some "0xkey";
     w3 := Some (local_node status);
     oracle_contract := Some oracle_mock;
     account := Some {| address := "0xf39Fd6e51aad88F6F4ce6aB8827279cffFb92266" |} |}.

(** ** The rest of the listener: [__init__], [connect], [load_contract],
    [get_score]

    These methods assign to attributes of [self]; an assignment made before
    an exception survives the [except] clause.  A method is therefore a
    function from the listener to the listener afterwards and an outcome. *)

Definition init (rpc_url : string) (oracle_address private_key : option string)
  : OracleListener :=
  {| rpc_url := rpc_url; oracle_address := oracle_address;
     private_key := private_key; w3 := None; oracle_contract := None;
     account := None |}.

(** Truth value of an optional string: [None] and the empty string are
    false. *)
Definition truthy (o : option string) : option string :=
  match o with
  | Some s => if decide (s = "") then None else Some s
  | None => None
  end.

Definition action (A : Type) : Type :=
  OracleListener -> OracleListener * result A.

#[global] Instance action_ret : MRet action := fun A a self => (self, Ret a).

#[global] Instance action_bind : MBind action := fun A B k c self =>
  match c self with
  | (self', Ret a) => k a self'
  | (self', Raise e) => (self', Raise e)
  end.

(** A call into a collaborator, which leaves the listener alone. *)
Definition call {A : Type} (c : result A) : action A :=
  fun self => (self, c).

(** [self.attr]. *)
Definition attr {A : Type} (f : OracleListener -> A) : action A :=
  fun self => (self, Ret (f self)).

(** [self.w3 = w], [self.account = a], [self.oracle_contract = c]. *)
Definition assign_w3 (w : Web3) : action unit := fun self =>
  ({| rpc_url := rpc_url self; oracle_address := oracle_address self;
      private_key := private_key self; w3 := Some w;
      oracle_contract := oracle_contract self; account := account self |},
   Ret tt).

Definition assign_account (a : Account) : action unit := fun self =>
  ({| rpc_url := rpc_url self; oracle_address := oracle_address self;
      private_key := private_key self; w3 := w3 self;
      oracle_contract := oracle_contract self; account := Some a |},
   Ret tt).

Definition assign_oracle_contract (c : Contract) : action unit := fun self =>
  ({| rpc_url := rpc_url self; oracle_address := oracle_address self;
      private_key := private_key self; w3 := w3 self;
      oracle_contract := Some c; account := account self |},
   Ret tt).

(** [try: body except Exception: return False]. *)
Definition except_false (body : action bool)
  : OracleListener -> OracleListener * bool :=
  fun self =>
    match body self with
    | (self', Ret b) => (self', b)
    | (self', Raise _) => (self', false)
    end.

(** What [json.load] returns. *)
#[warnings="-register-all"]
Inductive json : Type :=
| JNull
| JBool (b : bool)
| JNumber (q : Q)
| JString (s : string)
| JArray (items : list json)
| JObject (members : gmap string json).

(** [j.get(key, default)]: only a dictionary has the method. *)
Definition json_get (j : json) (key : string) (default : json) : result json :=
  match j with
  | JObject members =>
      match members !! key with
      | Some v => Ret v
      | None => Ret default
      end
  | _ => Raise (PyException "AttributeError")
  end.

Section Lifecycle.

(** The collaborators: the web3 library, the node behind the RPC URL and
    the file system. *)
Variable to_checksum_address : string -> result string.
(** [Web3(Web3.HTTPProvider(url))]. *)
Variable new_web3 : string -> result Web3.
Variable is_connected : Web3 -> result bool.
Variable chain_id : Web3 -> result Z.
Variable block_number : Web3 -> result Z.
(** [w3.eth.account.from_key(key)]. *)
Variable from_key : Web3 -> string -> result Account.
(** [w3.eth.contract(address=..., abi=...)]. *)
Variable eth_contract : Web3 -> string -> json -> result Contract.
(** [with open(path) as f: json.load(f)]. *)
Variable read_json : string -> result json.
(** [contract.functions.reputation().call()]. *)
Variable reputation_call : Contract -> result string.

Definition connect : OracleListener -> OracleListener * bool :=
  except_false
    (url ← attr rpc_url;
     w ← call (new_web3 url);
     _ ← assign_w3 w;
     up ← call (is_connected w);
     if negb up then mret false
     else
       _ ← call (chain_id w);
       _ ← call (block_number w);
       key ← attr private_key;
       match truthy key with
       | Some k =>
           a ← call (from_key w k);
           _ ← assign_account a;
           mret true
       | None => mret true
       end).

Definition load_contract (abi_path : string)
  : OracleListener -> OracleListener * bool :=
  fun self =>
    match w3 self, truthy (oracle_address self) with
    | Some w, Some addr =>
        except_false
          (contract_json ← call (read_json abi_path);
           abi ← call (json_get contract_json "abi" contract_json);
           checksummed ← call (to_checksum_address addr);
           contract ← call (eth_contract w checksummed abi);
           _ ← assign_oracle_contract contract;
           mret true)
          self
    | _, _ => (self, false)
    end.

Definition get_score (self : OracleListener) (user_address : string)
  : result (option Z) :=
  match oracle_contract self with
  | None => mret None
  | Some contract =>
      try_except
        (user_address ← to_checksum_address user_address;
         reputation_address ← reputation_call contract;
         mret None)
        (fun e => mret None)
  end.

End Lifecycle.

(** A local development node and an artifact file, for concrete runs. *)
Definition dev_new_web3 (url : string) : result Web3 := Ret (local_node 1).
Definition dev_is_connected (w : Web3) : result bool := Ret true.
Definition dev_chain_id (w : Web3) : result Z := Ret 31337.
Definition dev_block_number (w : Web3) : result Z := Ret 0.
Definition dev_from_key (w : Web3) (key : string) : result Account :=
  Ret {| address := "0xf39Fd6e51aad88F6F4ce6aB8827279cffFb92266" |}.
Definition dev_eth_contract (w : Web3) (addr : string) (abi : json)
  : result Contract := Ret oracle_mock.
Definition artifact : json :=
  JObject (<["abi" := JArray []]> (<["contractName" := JString "OracleMock"]> ∅)).
Definition dev_read_json (path : string) : result json :=
  if decide (path = "OracleMock.json") then Ret artifact
  else if decide (path = "abi.json") then Ret (JArray [])
  else Raise (PyException "FileNotFoundError").

Definition dev_listener : OracleListener :=
  init "http://127.0.0.1:8545"
       (Some "0x5FbDB2315678afecb367f032d93F642f64180aa3") (Some "0xkey").

End OracleListener.

(** * backend/main.py *)

Module Backend.

Record PushScoreRequest : Type := {
  wallet_address : string;
  score : Z
}.

Record PushScoreResponse : Type := {
  success : bool;
  r_wallet_address : string;
  r_score : Z;
  message : string;
  transaction_hash : option string
}.

Record HTTPException : Type := { status_code : Z; detail : string }.

(** An endpoint answers with a response or raises an [HTTPException]. *)
Inductive http (A : Type) : Type :=
| Ok (a : A)
| HTTPError (e : HTTPException).

Arguments Ok {A} a.
Arguments HTTPError {A} e.

(** The global [blockchain_state] dictionary. *)
Record BlockchainState : Type := {
  connected : bool;
  bs_oracle_address : option string;
  reputation_address : option string
}.

Definition blockchain_state : BlockchainState :=
  {| connected := false; bs_oracle_address := None;
     reputation_address := None |}.

(** The state once a listener has connected. *)
Definition connected_state : BlockchainState :=
  {| connected := true;
     bs_oracle_address := Some "0x5FbDB2315678afecb367f032d93F642f64180aa3";
     reputation_address := None |}.

Definition get_tier_from_score (score : Z) : string :=
  if 80 <=? score then "FULL"
  else if 50 <=? score then "LIMITED"
  else "BLOCKED".

(** [push_score]: the body of the [try] raises nothing but the
    [HTTPException] of the range check, which is re-raised unchanged. *)
Definition push_score (state : BlockchainState) (request : PushScoreRequest)
  : http PushScoreResponse :=
  if negb ((0 <=? score request) && (score request <=? 100)) then
    HTTPError {| status_code := 400;
                 detail := "Score must be between 0 and 100" |}
  else if negb (connected state) then
    Ok {| success := true;
          r_wallet_address := wallet_address request;
          r_score := score request;
          message := "Score recorded (blockchain not connected - stub mode)";
          transaction_hash := None |}
  else
    Ok {| success := true;
          r_wallet_address := wallet_address request;
          r_score := score request;
          message := "Score pushed to blockchain";
          transaction_hash := Some "0x..." |}.

(** ** The evaluation endpoints *)

Record EvaluateRequest : Type := {
  q_wallet_address : string;
  q_transaction_count : Z;
  q_avg_transaction_value : Q;
  q_account_age_days : Z;
  q_dispute_count : Z;
  q_successful_transactions : Z;
  q_frequency_per_day : Q;
  q_variance_score : option Q
}.

Record EvaluateResponse : Type := {
  e_wallet_address : string;
  e_score : Z;
  e_tier : string;
  e_details : ScoreService.ScoreDetails
}.

(** The constructors of the two models whose [score] field is declared
    with [ge=0, le=100]: a value outside raises a validation error. *)
Definition new_EvaluateResponse (wallet_address : string) (score : Z)
    (tier : string) (details : ScoreService.ScoreDetails)
  : result EvaluateResponse :=
  if (0 <=? score) && (score <=? 100) then
    Ret {| e_wallet_address := wallet_address; e_score := score;
           e_tier := tier; e_details := details |}
  else Raise (PyException "ValidationError").

Definition new_PushScoreRequest (wallet_address : string) (score : Z)
  : result PushScoreRequest :=
  if (0 <=? score) && (score <=? 100) then
    Ret {| wallet_address := wallet_address; score := score |}
  else Raise (PyException "ValidationError").

(** [str(e)]. *)
Definition exn_str (e : exn) : string :=
  match e with
  | ZeroDivisionError => "division by zero"
  | ValueError msg => msg
  | OverflowError msg => msg
  | ContractLogicError msg => msg
  | PyException msg => msg
  end.

Definition evaluate_user (request : EvaluateRequest) : http EvaluateResponse :=
  let body : result EvaluateResponse :=
    let metrics :=
      {| ScoreService.transaction_count := q_transaction_count request;
         ScoreService.avg_transaction_value := q_avg_transaction_value request;
         ScoreService.account_age_days := q_account_age_days request;
         ScoreService.dispute_count := q_dispute_count request;
         ScoreService.successful_transactions :=
           q_successful_transactions request;
         ScoreService.frequency_per_day := q_frequency_per_day request;
         ScoreService.variance_score := q_variance_score request |} in
    score ← ScoreService.calculate_score metrics;
    details ← ScoreService.get_score_details metrics;
    let tier := get_tier_from_score score in
    new_EvaluateResponse (q_wallet_address request) score tier details in
  match body with
  | Ret response => Ok response
  | Raise e =>
      HTTPError {| status_code := 500;
                   detail := "Scoring error: " +:+ exn_str e |}
  end.

(** The metrics that [evaluate_user] builds from a request. *)
Definition metrics_of (request : EvaluateRequest) : ScoreService.UserMetrics :=
  {| ScoreService.transaction_count := q_transaction_count request;
     ScoreService.avg_transaction_value := q_avg_transaction_value request;
     ScoreService.account_age_days := q_account_age_days request;
     ScoreService.dispute_count := q_dispute_count request;
     ScoreService.successful_transactions :=
       q_successful_transactions request;
     ScoreService.frequency_per_day := q_frequency_per_day request;
     ScoreService.variance_score := q_variance_score request |}.

(** The request of the example in the schema of [EvaluateRequest], and the
    same with an account age of [10^400] days. *)
Definition example_request : EvaluateRequest :=
  {| q_wallet_address := "0x742d35Cc6634C0532925a3b844Bc9e7595f0Ab01";
     q_transaction_count := 100;
     q_avg_transaction_value := 500;
     q_account_age_days := 365;
     q_dispute_count := 0;
     q_successful_transactions := 98;
     q_frequency_per_day := 1 # 2;
     q_variance_score := None |}.

Definition ancient_request : EvaluateRequest :=
  {| q_wallet_address := "0x742d35Cc6634C0532925a3b844Bc9e7595f0Ab01";
     q_transaction_count := 100;
     q_avg_transaction_value := 500;
     q_account_age_days := 10 ^ 400;
     q_dispute_count := 0;
     q_successful_transactions := 98;
     q_frequency_per_day := 1 # 2;
     q_variance_score := None |}.

(** [evaluate_and_push] has no [try]: an [HTTPException] of either step
    passes through, and so would a validation error of the request it
    builds, which is the outer [result]. *)
Definition evaluate_and_push (state : BlockchainState)
    (request : EvaluateRequest) : result (http PushScoreResponse) :=
  match evaluate_user request with
  | HTTPError e => Ret (HTTPError e)
  | Ok evaluate_response =>
      push_request ← new_PushScoreRequest (q_wallet_address request)
                                          (e_score evaluate_response);
      match push_score state push_request with
      | HTTPError e => Ret (HTTPError e)
      | Ok push_response =>
          Ret (Ok {| success := success push_response;
                     r_wallet_address := r_wallet_address push_response;
                     r_score := r_score push_response;
                     message :=
                       "Evaluated (score: "
                       +:+ pretty (e_score evaluate_response)
                       +:+ ", tier: " +:+ e_tier evaluate_response
                       +:+ ") - " +:+ message push_response;
                     transaction_hash := transaction_hash push_response |})
      end
  end.

End Backend.

(** * Facts about the exact reals *)

Module RealFacts.
Import Real.

Lemma pow_cross_lt (n a a' : Z) (b b' : positive) :
  1 <= n -> 0 <= a -> a * Z.pos b' <= a' * Z.pos b ->
  n ^ Z.pos b < 10 ^ a -> n ^ Z.pos b' < 10 ^ a'.
Proof.
  intros Hn Ha Hc Hlt.
  assert (Ha' : 0 <= a') by nia.
  destruct (Z.lt_ge_cases (n ^ Z.pos b') (10 ^ a')) as [|Hge]; [assumption|].
  exfalso.
  assert (H1 : (10 ^ a') ^ Z.pos b <= (n ^ Z.pos b') ^ Z.pos b).
  { apply Z.pow_le_mono_l. split; [apply Z.pow_nonneg; lia | assumption]. }
  assert (H2 : (n ^ Z.pos b) ^ Z.pos b' < (10 ^ a) ^ Z.pos b').
  { apply Z.pow_lt_mono_l; [lia|]. split; [apply Z.pow_nonneg; lia | assumption]. }
  assert (H3 : 10 ^ (a * Z.pos b') <= 10 ^ (a' * Z.pos b)).
  { apply Z.pow_le_mono_r; lia. }
  rewrite <- !Z.pow_mul_r in H1, H2 by lia.
  rewrite (Z.mul_comm (Z.pos b') (Z.pos b)) in H1. lia.
Qed.

Lemma pow_cross_le (n a a' : Z) (b b' : positive) :
  1 <= n -> 0 <= a -> a * Z.pos b' < a' * Z.pos b ->
  n ^ Z.pos b <= 10 ^ a -> n ^ Z.pos b' < 10 ^ a'.
Proof.
  intros Hn Ha Hc Hle.
  assert (Ha' : 0 <= a') by nia.
  destruct (Z.lt_ge_cases (n ^ Z.pos b') (10 ^ a')) as [|Hge]; [assumption|].
  exfalso.
  assert (H1 : (10 ^ a') ^ Z.pos b <= (n ^ Z.pos b') ^ Z.pos b).
  { apply Z.pow_le_mono_l. split; [apply Z.pow_nonneg; lia | assumption]. }
  assert (H2 : (n ^ Z.pos b) ^ Z.pos b' <= (10 ^ a) ^ Z.pos b').
  { apply Z.pow_le_mono_l. split; [apply Z.pow_nonneg; lia | assumption]. }
  assert (H3 : 10 ^ (a * Z.pos b') < 10 ^ (a' * Z.pos b)).
  { apply Z.pow_lt_mono_r; lia. }
  rewrite <- !Z.pow_mul_r in H1, H2 by lia.
  rewrite (Z.mul_comm (Z.pos b') (Z.pos b)) in H1. lia.
Qed.

Section Log10.
Variable N : positive.

Lemma lt10_spec t :
  lt10 N t = true <->
  0 <= Qnum t /\ Z.pos N ^ Z.pos (Qden t) < 10 ^ Qnum t.
Proof. unfold lt10. rewrite andb_true_iff, Z.leb_le, Z.ltb_lt. tauto. Qed.

Lemma le10_spec t :
  le10 N t = true <->
  0 <= Qnum t /\ Z.pos N ^ Z.pos (Qden t) <= 10 ^ Qnum t.
Proof. unfold le10. rewrite andb_true_iff, !Z.leb_le. tauto. Qed.

Lemma eq10_spec t :
  eq10 N t = true <->
  0 <= Qnum t /\ Z.pos N ^ Z.pos (Qden t) = 10 ^ Qnum t.
Proof. unfold eq10. rewrite andb_true_iff, Z.leb_le, Z.eqb_eq. tauto. Qed.

Lemma lt10_mono t t' : (t <= t')%Q -> lt10 N t = true -> lt10 N t' = true.
Proof.
  rewrite !lt10_spec. unfold Qle. intros Hle [Ha Hlt].
  split; [nia|]. apply (pow_cross_lt _ (Qnum t) _ (Qden t)); auto; lia.
Qed.

Lemma le10_lt10 t t' : (t < t')%Q -> le10 N t = true -> lt10 N t' = true.
Proof.
  rewrite le10_spec, lt10_spec. unfold Qlt. intros Hlt [Ha Hle].
  split; [nia|]. apply (pow_cross_le _ (Qnum t) _ (Qden t)); auto; lia.
Qed.

Lemma lt10_le10 t : lt10 N t = true -> le10 N t = true.
Proof. rewrite le10_spec, lt10_spec. intros []. split; lia. Qed.

Lemma eq10_le10 t : eq10 N t = true -> le10 N t = true.
Proof. rewrite le10_spec, eq10_spec. intros []. split; lia. Qed.

Lemma le10_cases t : le10 N t = lt10 N t || eq10 N t.
Proof.
  unfold le10, lt10, eq10. destruct (0 <=? Qnum t); simpl; [|reflexivity].
  destruct (Z.compare_spec (Z.pos N ^ Z.pos (Qden t)) (10 ^ Qnum t)) as [H|H|H].
  - rewrite (proj2 (Z.leb_le _ _)), (proj2 (Z.eqb_eq _ _)) by lia.
    apply eq_sym, orb_true_r.
  - rewrite (proj2 (Z.leb_le _ _)), (proj2 (Z.ltb_lt _ _)) by lia. reflexivity.
  - rewrite (proj2 (Z.leb_gt _ _)), (proj2 (Z.ltb_ge _ _)) by lia.
    apply eq_sym, Z.eqb_neq. lia.
Qed.


Lemma lt10_neg t : (t <= 0)%Q -> lt10 N t = false.
Proof.
  unfold Qle. simpl. intros H. apply not_true_is_false. rewrite lt10_spec.
  intros [Ha Hlt]. assert (Qnum t = 0) as E by lia. rewrite E in Hlt.
  assert (0 < Z.pos N ^ Z.pos (Qden t)) by (apply Z.pow_pos_nonneg; lia).
  simpl in Hlt. lia.
Qed.

Lemma eq10_neg t : (t < 0)%Q -> eq10 N t = false.
Proof.
  unfold Qlt. simpl. intros H. apply not_true_is_false. rewrite eq10_spec. lia.
Qed.

(** [log10 N < log2 N + 1]. *)
Lemma lt10_log2 : lt10 N (inject_Z (Z.log2 (Z.pos N) + 1)) = true.
Proof.
  rewrite lt10_spec. cbn [inject_Z Qnum Qden].
  pose proof (Z.log2_nonneg (Z.pos N)).
  split; [lia|].
  destruct (Z.log2_spec (Z.pos N)) as [_ Hlt]; [lia|].
  rewrite Z.pow_1_r. apply Z.lt_le_trans with (2 ^ (Z.log2 (Z.pos N) + 1)).
  - replace (Z.log2 (Z.pos N) + 1) with (Z.succ (Z.log2 (Z.pos N))) by lia.
    exact Hlt.
  - apply Z.pow_le_mono_l. lia.
Qed.

(** [3 (log2 N) / 10 <= log10 N], since [10^3 <= 2^10]. *)
Lemma lt10_log2_low : lt10 N (3 * Z.log2 (Z.pos N) # 10) = false.
Proof.
  apply not_true_is_false. rewrite lt10_spec. cbn [Qnum Qden].
  pose proof (Z.log2_nonneg (Z.pos N)) as HL.
  destruct (Z.log2_spec (Z.pos N)) as [Hle _]; [lia|].
  intros [_ Hlt].
  assert (H1 : (2 ^ Z.log2 (Z.pos N)) ^ 10 <= Z.pos N ^ 10).
  { apply Z.pow_le_mono_l. split; [apply Z.pow_nonneg; lia | assumption]. }
  assert (H2 : (10 ^ 3) ^ Z.log2 (Z.pos N) <= (2 ^ 10) ^ Z.log2 (Z.pos N)).
  { apply Z.pow_le_mono_l. split; [apply Z.pow_nonneg|]; lia. }
  rewrite <- Z.pow_mul_r in H1 by lia.
  rewrite <- (Z.pow_mul_r 10), <- (Z.pow_mul_r 2) in H2 by lia.
  rewrite (Z.mul_comm (Z.log2 (Z.pos N)) 10) in H1.
  apply (Z.lt_irrefl (Z.pos N ^ 10)).
  eapply Z.lt_le_trans; [exact Hlt|].
  eapply Z.le_trans; [exact H2 | exact H1].
Qed.

Lemma le10_low t : (t < 3 * Z.log2 (Z.pos N) # 10)%Q -> le10 N t = false.
Proof.
  intros H. apply not_true_is_false. intros Hle.
  pose proof (le10_lt10 _ _ H Hle) as Hlt.
  rewrite lt10_log2_low in Hlt. discriminate.
Qed.

End Log10.

Lemma search_spec (p : Z -> bool) (fuel : nat) (k j : Z) :
  k <= j < k + Z.of_nat fuel -> p j = true ->
  p (search p fuel k) = true /\ k <= search p fuel k /\
  forall i, k <= i < search p fuel k -> p i = false.
Proof.
  revert k. induction fuel as [|f IH]; intros k Hj Hp; [lia|].
  simpl. destruct (p k) eqn:Hk.
  - split; [assumption|]. split; [lia|]. intros i Hi. lia.
  - assert (k <> j) by congruence.
    destruct (IH (k + 1)) as (H1 & H2 & H3); [lia | assumption |].
    split; [assumption|]. split; [lia|].
    intros i Hi. destruct (Z.eq_dec i k) as [->|]; [assumption|].
    apply H3. lia.
Qed.

Section Order.
Variable x : real.

Lemma ltQ_mono r r' : (r <= r')%Q -> ltQ x r = true -> ltQ x r' = true.
Proof.
  unfold ltQ. intros H. apply lt10_mono. apply Qred_le. lra.
Qed.

Lemma leQ_ltQ r r' : (r < r')%Q -> leQ x r = true -> ltQ x r' = true.
Proof.
  unfold ltQ, leQ. intros H. apply le10_lt10. apply Qred_lt. lra.
Qed.

Lemma leQ_cases r : leQ x r = ltQ x r || eqQ x r.
Proof. apply le10_cases. Qed.


Lemma leQ_low r :
  (r < rat x + (3 * Z.log2 (Z.pos (arg x)) # 10))%Q -> leQ x r = false.
Proof.
  intros H. apply le10_low. rewrite Qred_correct. lra.
Qed.

Lemma ltQ_high r :
  (rat x + inject_Z (Z.log2 (Z.pos (arg x)) + 1) <= r)%Q -> ltQ x r = true.
Proof.
  intros H. unfold ltQ.
  apply (lt10_mono _ (inject_Z (Z.log2 (Z.pos (arg x)) + 1)));
    [|apply lt10_log2].
  rewrite Qred_correct. lra.
Qed.

End Order.

(** Two reals with the same logarithmic part are ordered by their rational
    parts. *)
Section SameArg.
Variables x y : real.
Hypothesis Harg : arg x = arg y.

Lemma ltQ_anti r : (rat x <= rat y)%Q -> ltQ y r = true -> ltQ x r = true.
Proof.
  unfold ltQ. rewrite Harg. intros H. apply lt10_mono. apply Qred_le. lra.
Qed.

Lemma eqQ_ltQ r : (rat x < rat y)%Q -> eqQ y r = true -> ltQ x r = true.
Proof.
  unfold ltQ, eqQ. rewrite Harg. intros H He.
  apply (le10_lt10 _ (Qred (r - rat y))); [apply Qred_lt; lra|].
  apply eq10_le10, He.
Qed.

Lemma ltQ_ext r : (rat x == rat y)%Q -> ltQ x r = ltQ y r.
Proof.
  unfold ltQ. rewrite Harg. intros H. f_equal. apply Qred_complete.
  rewrite H. reflexivity.
Qed.

Lemma eqQ_ext r : (rat x == rat y)%Q -> eqQ x r = eqQ y r.
Proof.
  unfold eqQ. rewrite Harg. intros H. f_equal. apply Qred_complete.
  rewrite H. reflexivity.
Qed.

Lemma leQ_ext r : (rat x == rat y)%Q -> leQ x r = leQ y r.
Proof. intros H. rewrite !leQ_cases, ltQ_ext, eqQ_ext; auto. Qed.

Lemma below_ext k : (rat x == rat y)%Q -> below x k = below y k.
Proof. intros H. unfold below. rewrite ltQ_ext, eqQ_ext; auto. Qed.

Lemma below_anti k : (rat x <= rat y)%Q -> below y k = true -> below x k = true.
Proof.
  intros H. unfold below. rewrite !orb_true_iff, !andb_true_iff.
  intros [Hlt | [He Hev]].
  - left. apply ltQ_anti with (r := (inject_Z k + (1 # 2))%Q); assumption.
  - destruct (Qlt_le_dec (rat x) (rat y)) as [Hl | Hg].
    + left. apply eqQ_ltQ; assumption.
    + right. rewrite eqQ_ext by lra. auto.
Qed.

End SameArg.

Lemma inject_Z_shift (k j c : Z) :
  k + c <= j -> (inject_Z k + inject_Z c <= inject_Z j)%Q.
Proof. intros H. rewrite <- inject_Z_plus, <- Zle_Qle. exact H. Qed.


Lemma inject_Z_succ_half (k : Z) :
  (inject_Z k + (1 # 2) == inject_Z (k + 1) - (1 # 2))%Q.
Proof. unfold Qeq, Qplus, Qminus, Qopp, inject_Z. simpl. lia. Qed.

Section Round.
Variable x : real.


Lemma eqQ_proper r r' : (r == r')%Q -> eqQ x r = eqQ x r'.
Proof.
  intros H. unfold eqQ. f_equal. apply Qred_complete. rewrite H. reflexivity.
Qed.

Lemma below_low k :
  k < Qfloor (rat x) + 3 * Z.log2 (Z.pos (arg x)) / 10 -> below x k = false.
Proof.
  intros Hk. pose proof (Qfloor_le (rat x)) as Hf.
  set (L := Z.log2 (Z.pos (arg x))) in *.
  assert (H1 : (inject_Z k + inject_Z 1
                <= inject_Z (Qfloor (rat x) + 3 * L / 10))%Q)
    by (apply inject_Z_shift; lia).
  assert (H2 : (inject_Z (3 * L / 10) <= 3 * L # 10)%Q).
  { unfold Qle. cbn [inject_Z Qnum Qden].
    pose proof (Z.mul_div_le (3 * L) 10). lia. }
  rewrite inject_Z_plus in H1. change (inject_Z 1) with 1%Q in H1.
  assert (Hle : leQ x (inject_Z k + (1 # 2)) = false)
    by (apply leQ_low; fold L; lra).
  rewrite leQ_cases in Hle. apply orb_false_iff in Hle.
  unfold below. destruct Hle as [-> ->]. reflexivity.
Qed.

Lemma below_high :
  below x (Qfloor (rat x) + Z.log2 (Z.pos (arg x)) + 2) = true.
Proof.
  pose proof (Qlt_floor (rat x)) as Hf.
  unfold below. rewrite ltQ_high; [reflexivity|].
  rewrite !inject_Z_plus in *. change (inject_Z 2) with 2%Q.
  change (inject_Z 1) with 1%Q in *. lra.
Qed.

Lemma round_spec :
  below x (round x) = true /\ forall j, j < round x -> below x j = false.
Proof.
  unfold round.
  destruct (search_spec (below x) (Z.to_nat (Z.log2 (Z.pos (arg x))) + 3)
              (Qfloor (rat x) + 3 * Z.log2 (Z.pos (arg x)) / 10)
              (Qfloor (rat x) + Z.log2 (Z.pos (arg x)) + 2))
    as (H1 & H2 & H3).
  - pose proof (Z.log2_nonneg (Z.pos (arg x))).
    pose proof (Z.div_pos (3 * Z.log2 (Z.pos (arg x))) 10).
    pose proof (Z.mul_div_le (3 * Z.log2 (Z.pos (arg x))) 10). lia.
  - apply below_high.
  - split; [assumption|]. intros j Hj.
    destruct (Z.lt_ge_cases j
                (Qfloor (rat x) + 3 * Z.log2 (Z.pos (arg x)) / 10)).
    + apply below_low. assumption.
    + apply H3. lia.
Qed.

Lemma round_least k : below x k = true -> round x <= k.
Proof.
  intros Hk. destruct round_spec as [_ H].
  destruct (Z.lt_ge_cases k (round x)) as [Hlt|]; [|lia].
  rewrite (H _ Hlt) in Hk. discriminate.
Qed.


Lemma nearest_even_unique k : nearest_even x k -> k = round x.
Proof.
  intros (H1 & H2 & H3 & H4).
  assert (Hk : below x k = true).
  { unfold below. rewrite leQ_cases in H2. apply orb_true_iff in H2.
    destruct H2 as [-> | He]; [reflexivity|].
    rewrite He, (H4 He). apply orb_true_r. }
  pose proof (round_least _ Hk) as Hle.
  destruct round_spec as [Hb _].
  destruct (Z.eq_dec k (round x)) as [|Hne]; [assumption|exfalso].
  assert (Hlt : round x < k) by lia.
  assert (Hq : (inject_Z (round x) + 1 <= inject_Z k)%Q)
    by (apply (inject_Z_shift _ k 1); lia).
  unfold below in Hb. apply orb_true_iff in Hb. destruct Hb as [Hb | Hb].
  - rewrite (ltQ_mono x (inject_Z (round x) + (1 # 2))%Q
               (inject_Z k - (1 # 2))%Q) in H1;
      [discriminate | lra | exact Hb].
  - apply andb_true_iff in Hb. destruct Hb as [He Hev].
    destruct (Z.eq_dec (round x + 1) k) as [E|].
    + assert (Ek : (inject_Z (round x) + (1 # 2) == inject_Z k - (1 # 2))%Q)
        by (rewrite <- E; apply inject_Z_succ_half).
      rewrite (eqQ_proper _ _ Ek) in He. specialize (H3 He).
      rewrite <- E, Z.even_add, Hev in H3. discriminate.
    + assert (Hq2 : (inject_Z (round x) + 2 <= inject_Z k)%Q)
        by (apply (inject_Z_shift _ k 2); lia).
      rewrite (leQ_ltQ x (inject_Z (round x) + (1 # 2))%Q
                 (inject_Z k - (1 # 2))%Q) in H1;
        [discriminate | lra |].
      rewrite leQ_cases, He. apply orb_true_r.
Qed.

End Round.

(** On rationals the order is the order of [Q]. *)
Lemma lt10_one t : lt10 1 t = true <-> (0 < t)%Q.
Proof.
  rewrite lt10_spec. unfold Qlt. cbn [Qnum Qden]. rewrite Z.pow_1_l by lia.
  split.
  - intros [H0 H1]. destruct (Z.eq_dec (Qnum t) 0) as [E|]; [|lia].
    rewrite E in H1. simpl in H1. lia.
  - intros H. split; [lia|].
    apply (Z.pow_gt_1 10 (Qnum t)); lia.
Qed.

Lemma eq10_one t : eq10 1 t = true <-> (t == 0)%Q.
Proof.
  rewrite eq10_spec. unfold Qeq. cbn [Qnum Qden]. rewrite Z.pow_1_l by lia.
  split.
  - intros [H0 H1]. destruct (Z.eq_dec (Qnum t) 0) as [E|]; [lia|].
    pose proof (Z.pow_gt_1 10 (Qnum t)). lia.
  - intros H. replace (Qnum t) with 0 by lia. split; [lia | reflexivity].
Qed.

Lemma ltQ_of_Q q r : ltQ (of_Q q) r = true <-> (q < r)%Q.
Proof.
  unfold ltQ. cbn [arg rat of_Q]. rewrite lt10_one, Qred_correct.
  split; intros; lra.
Qed.

Lemma eqQ_of_Q q r : eqQ (of_Q q) r = true <-> (q == r)%Q.
Proof.
  unfold eqQ. cbn [arg rat of_Q]. rewrite eq10_one, Qred_correct.
  split; intros; lra.
Qed.

Lemma leQ_of_Q q r : leQ (of_Q q) r = true <-> (q <= r)%Q.
Proof.
  rewrite leQ_cases, orb_true_iff, ltQ_of_Q, eqQ_of_Q.
  split; [intros []; lra|]. intros H.
  destruct (Qlt_le_dec q r); [left; assumption | right; lra].
Qed.

Lemma round_of_Q (q : Q) : round (of_Q q) = round_half_even_Q q.
Proof.
  symmetry. apply nearest_even_unique.
  pose proof (Qfloor_le q) as Hlo. pose proof (Qlt_floor q) as Hhi.
  rewrite inject_Z_plus in Hhi. change (inject_Z 1) with 1%Q in Hhi.
  unfold nearest_even, round_half_even_Q.
  rewrite leQ_of_Q, !eqQ_of_Q.
  destruct (Qcompare_spec (q - inject_Z (Qfloor q)) (1 # 2)) as [He|Hl|Hg].
  - destruct (Z.even (Qfloor q)) eqn:Hev.
    + split; [apply not_true_is_false; rewrite ltQ_of_Q; lra|].
      split; [lra|]. split; auto.
    + rewrite inject_Z_plus. change (inject_Z 1) with 1%Q.
      split; [apply not_true_is_false; rewrite ltQ_of_Q; lra|].
      split; [lra|]. rewrite Z.even_add, Hev. split; [reflexivity|].
      intros; lra.
  - split; [apply not_true_is_false; rewrite ltQ_of_Q; lra|].
    split; [lra|]. split; intros; lra.
  - rewrite inject_Z_plus. change (inject_Z 1) with 1%Q.
    split; [apply not_true_is_false; rewrite ltQ_of_Q; lra|].
    split; [lra|]. split; intros; lra.
Qed.

(** The logarithm of a power of ten is exact. *)
Example log10_1000 : eqQ (mkReal 0 1000) 3 = true.
Proof. reflexivity. Qed.

Example round_tie_to_even :
  round (of_Q (5 # 2)) = 2 /\ round (of_Q (7 # 2)) = 4 /\
  round (of_Q (- (5 # 2))) = -2.
Proof. repeat split. Qed.

Example round_tie_away :
  round_half_away (of_Q (5 # 2)) = 3 /\ round_half_away (of_Q (7 # 2)) = 4 /\
  round_half_away (of_Q (- (5 # 2))) = -3.
Proof. repeat split. Qed.

(** [1/3 + log10 1331] is about 3.46. *)
Example round_with_log : round (mkReal (1 # 3) 1331) = 3.
Proof. vm_compute. reflexivity. Qed.

Lemma round_mono (x y : real) :
  arg x = arg y -> (rat x <= rat y)%Q -> round x <= round y.
Proof.
  intros Ha Hr. apply round_least.
  apply (below_anti x y Ha _ Hr). apply round_spec.
Qed.

Lemma round_ext (x y : real) :
  arg x = arg y -> (rat x == rat y)%Q -> round x = round y.
Proof.
  intros Ha Hr.
  pose proof (round_mono x y Ha ltac:(lra)).
  pose proof (round_mono y x (eq_sym Ha) ltac:(lra)). lia.
Qed.

End RealFacts.

(** * The score engine *)

Module ScoreFacts.
Import Real RealFacts ScoreService.

Lemma math_log10_count (tc : Z) :
  math_log10 (Z.max tc 1 + 1) = Ret (mkReal 0 (Z.to_pos (Z.max tc 1 + 1))).
Proof.
  unfold math_log10. rewrite (proj2 (Z.ltb_lt _ _)) by lia. reflexivity.
Qed.

(** The fallible steps: each returns the exact value within the range of
    binary64 and fails with an [OverflowError] beyond it. *)
Lemma py_div_cases (a b : Z) :
  b <> 0 ->
  ((Qabs (inject_Z a / inject_Z b) < float_overflow)%Q /\
   py_div a b = Ret (inject_Z a / inject_Z b)%Q) \/
  (~ (Qabs (inject_Z a / inject_Z b) < float_overflow)%Q /\
   py_div a b =
     Raise (OverflowError "integer division result too large for a float")).
Proof.
  intros Hb. unfold py_div. rewrite (proj2 (Z.eqb_neq _ _)) by assumption.
  cbv zeta.
  destruct (Qle_bool float_overflow (Qabs (inject_Z a / inject_Z b))) eqn:E.
  - right. apply Qle_bool_iff in E. split; [|reflexivity].
    intros H. exact (Qlt_not_le _ _ H E).
  - left. split; [|reflexivity]. apply Qnot_le_lt. intros H.
    apply Qle_bool_iff in H. congruence.
Qed.

Lemma to_float_cases (n : Z) :
  ((Qabs (inject_Z n) < float_overflow)%Q /\ to_float n = Ret (inject_Z n)) \/
  (~ (Qabs (inject_Z n) < float_overflow)%Q /\
   to_float n = Raise (OverflowError "int too large to convert to float")).
Proof.
  unfold to_float.
  destruct (Qle_bool float_overflow (Qabs (inject_Z n))) eqn:E.
  - right. apply Qle_bool_iff in E. split; [|reflexivity].
    intros H. exact (Qlt_not_le _ _ H E).
  - left. split; [|reflexivity]. apply Qnot_le_lt. intros H.
    apply Qle_bool_iff in H. congruence.
Qed.

Lemma times20_cases (x : Q) :
  ((Qabs x < Float.times20_overflow)%Q /\
   Float.times20 x = Float.Fin (of_Q (x * 20))) \/
  (~ (Qabs x < Float.times20_overflow)%Q /\
   exists s, Float.times20 x = Float.Inf s).
Proof.
  unfold Float.times20.
  destruct (Qle_bool Float.times20_overflow (Qabs x)) eqn:E.
  - right. apply Qle_bool_iff in E. split; [|eauto].
    intros H. exact (Qlt_not_le _ _ H E).
  - left. split; [|reflexivity]. apply Qnot_le_lt. intros H.
    apply Qle_bool_iff in H. congruence.
Qed.

Lemma to_float_cases_small (n : Z) :
  (0 <= n <= 30 -> (Qabs (inject_Z n) < float_overflow)%Q) /\
  (0 <= n <= 30 -> to_float n = Ret (inject_Z n)).
Proof.
  assert (H : 0 <= n <= 30 -> (Qabs (inject_Z n) < float_overflow)%Q).
  { intros H. rewrite Qabs_pos by (change 0%Q with (inject_Z 0);
                                   rewrite <- Zle_Qle; lia).
    apply Qle_lt_trans with (inject_Z 30); [rewrite <- Zle_Qle; lia|].
    unfold float_overflow. rewrite <- Zlt_Qlt. reflexivity. }
  split; [exact H|]. intros Hn.
  destruct (to_float_cases n) as [[_ E]|[R _]]; [exact E|].
  destruct (R (H Hn)).
Qed.

Lemma times20_below_overflow :
  (Float.times20_overflow < float_overflow)%Q.
Proof. unfold Float.times20_overflow, float_overflow. rewrite <- Zlt_Qlt. reflexivity. Qed.

Ltac split_conditions m :=
  destruct (Qle_bool (1 # 10) (frequency_per_day m)
            && Qle_bool (frequency_per_day m) 5);
  destruct (variance_score m) as [v|]; try destruct (Qlt_bool v 30);
  destruct (Qlt_bool 10 (frequency_per_day m));
  destruct (Qlt_bool (avg_transaction_value m) 10
            && Qlt_bool 5 (frequency_per_day m)).

Ltac use_premises :=
  repeat match goal with
         | H : ?P -> _, p : ?P |- _ => specialize (H p)
         end.

Ltac not_in_range :=
  intros (H1 & H2 & H3 & H4); use_premises;
  pose proof times20_below_overflow;
  first [ contradiction
        | match goal with
          | R : ~ (_ < float_overflow)%Q |- _ =>
              apply R; eapply Qlt_trans; eassumption
          end ].

Ltac out_of_range :=
  right; split;
  [ not_in_range
  | cbn [mbind result_bind mret result_ret]; eexists; reflexivity ].

Ltac sum_equal :=
  cbn [mbind result_bind mret result_ret Float.add Float.add_real Float.addQ
       Float.subQ Float.round];
  unfold clamp; do 3 f_equal; apply round_ext; [reflexivity|];
  cbn [rat arg add addQ subQ of_Q scale]; ring.

(** [calculate_score] returns exactly on the records within the range of
    binary64, and then the clamped rounding of the sum; on the others it
    raises an [OverflowError]. *)
Lemma calculate_score_cases (m : UserMetrics) :
  (in_float_range m /\
   calculate_score m = Ret (clamp (round (score_sum m)))) \/
  (~ in_float_range m /\
   exists msg, calculate_score m = Raise (OverflowError msg)).
Proof.
  unfold calculate_score, in_float_range, score_sum.
  unfold age_bonus, success_rate_bonus, volume_bonus, frequency_bonus,
    low_variance_bonus, dispute_penalty, new_account_penalty,
    high_frequency_penalty, wash_trading_penalty.
  destruct (py_div_cases (account_age_days m) 365 ltac:(lia))
    as [[R1 E1]|[R1 E1]]; rewrite E1; change (inject_Z 365) with 365%Q in *;
    cbn [mbind result_bind]; [|out_of_range].
  rewrite math_log10_count.
  destruct (Z.ltb_spec 0 (transaction_count m)) as [Htc|Htc];
    [destruct (py_div_cases (successful_transactions m)
                 (transaction_count m) ltac:(lia))
       as [[R2 E2]|[R2 E2]]; rewrite E2; cbn [mbind result_bind];
       [destruct (times20_cases (inject_Z (successful_transactions m)
                                 / inject_Z (transaction_count m)))
          as [[R2' E2']|[R2' [sg E2']]]; rewrite E2'
       |out_of_range]
    |].
  all: cbn [mbind result_bind mret result_ret].
  all: destruct (to_float_cases (Z.min (dispute_count m * 5) 30))
         as [[R3 E3]|[R3 E3]]; rewrite E3; cbn [mbind result_bind];
         [|out_of_range].
  all: destruct (Z.ltb_spec (account_age_days m) 30) as [Hage|Hage];
         [destruct (py_div_cases (30 - account_age_days m) 3 ltac:(lia))
            as [[R4 E4]|[R4 E4]]; rewrite E4;
            change (inject_Z 3) with 3%Q in *; cbn [mbind result_bind];
            [|out_of_range]
         |].
  all: cbn [mbind result_bind mret result_ret].
  all: lazymatch goal with
       | _ : ~ _ |- _ => right; split; [not_in_range | eexists]
       | _ =>
           left; split; [repeat split; intros; first [assumption | lia]|]
       end.
  all: unfold minQ; destruct (leQ _ 10); split_conditions m.
  all: lazymatch goal with
       | |- _ = Raise _ => reflexivity
       | _ => sum_equal
       end.
Qed.


Lemma details_equal (f f' p p' : gmap string Q) (x y : real) :
  f = f' -> p = p' -> arg x = arg y -> (rat x == rat y)%Q ->
  Ret {| base_score := 50; factors := f; penalties := p;
         final_score := Z.max 0 (Z.min 100 (round x)) |} =
  Ret {| base_score := 50; factors := f'; penalties := p';
         final_score := clamp (round y) |}.
Proof.
  intros -> -> Ha Hr. unfold clamp. rewrite (round_ext x y Ha Hr). reflexivity.
Qed.

Ltac details_not_in_range :=
  intros (H1 & H2 & H4); use_premises;
  pose proof times20_below_overflow;
  first [ contradiction
        | match goal with
          | R : ~ (_ < float_overflow)%Q |- _ =>
              apply R; eapply Qlt_trans; eassumption
          end ].

Ltac details_out_of_range :=
  right; split;
  [ details_not_in_range
  | cbn [mbind result_bind mret result_ret]; eexists; reflexivity ].

(** [get_score_details] returns exactly on the records within the range of
    binary64, and then the breakdown in closed form; on the others it
    raises an [OverflowError]. *)
Lemma get_score_details_cases (m : UserMetrics) :
  (details_in_float_range m /\ get_score_details m = Ret (breakdown m)) \/
  (~ details_in_float_range m /\
   exists msg, get_score_details m = Raise (OverflowError msg)).
Proof.
  unfold get_score_details, details_in_float_range, breakdown,
    recorded_factors, recorded_penalties, recorded_sum.
  unfold age_bonus, success_rate_bonus, volume_bonus, frequency_bonus,
    dispute_penalty, new_account_penalty, high_frequency_penalty, round2Q.
  destruct (py_div_cases (account_age_days m) 365 ltac:(lia))
    as [[R1 E1]|[R1 E1]]; rewrite E1; change (inject_Z 365) with 365%Q in *;
    cbn [mbind result_bind]; [|details_out_of_range].
  rewrite math_log10_count.
  destruct (0 <? transaction_count m) eqn:Btc;
    [assert (Htc : 0 < transaction_count m) by (apply Z.ltb_lt; assumption);
     destruct (py_div_cases (successful_transactions m)
                 (transaction_count m) ltac:(lia))
       as [[R2 E2]|[R2 E2]]; rewrite E2; cbn [mbind result_bind];
       [destruct (times20_cases (inject_Z (successful_transactions m)
                                 / inject_Z (transaction_count m)))
          as [[R2' E2']|[R2' [sg E2']]]; rewrite E2'
       |details_out_of_range]
    |assert (Htc : ~ 0 < transaction_count m)
       by (apply Z.ltb_ge in Btc; lia)].
  all: cbn [mbind result_bind mret result_ret].
  all: destruct (Qle_bool (1 # 10) (frequency_per_day m)
                 && Qle_bool (frequency_per_day m) 5).
  all: destruct (0 <? dispute_count m) eqn:Bd;
         [apply Z.ltb_lt in Bd;
          rewrite (proj2 (to_float_cases_small
                            (Z.min (dispute_count m * 5) 30))
                     ltac:(lia))|].
  all: destruct (account_age_days m <? 30) eqn:Ba;
         [assert (Hage : account_age_days m < 30)
            by (apply Z.ltb_lt; assumption);
          destruct (py_div_cases (30 - account_age_days m) 3 ltac:(lia))
            as [[R4 E4]|[R4 E4]]; rewrite E4;
            change (inject_Z 3) with 3%Q in *; cbn [mbind result_bind];
            [|details_out_of_range]
         |assert (Hage : ~ account_age_days m < 30)
            by (apply Z.ltb_ge in Ba; lia)].
  all: cbn [mbind result_bind mret result_ret].
  all: lazymatch goal with
       | _ : ~ (_ < _)%Q |- _ =>
           right; split; [details_not_in_range | eexists]
       | _ =>
           left; split; [repeat split; intros; first [assumption | lia]|]
       end.
  all: unfold minQ; destruct (leQ _ 10);
       destruct (Qlt_bool 10 (frequency_per_day m)).
  all: lazymatch goal with
       | |- _ = Raise _ => reflexivity
       | _ =>
           cbn [mbind result_bind mret result_ret Float.add Float.add_real
                Float.addQ Float.subQ Float.round];
           apply details_equal;
           [ reflexivity | reflexivity | reflexivity
           | cbn [rat arg add addQ subQ of_Q scale]; ring ]
       end.
Qed.

Lemma get_score_details_ret (m : UserMetrics) (d : ScoreDetails) :
  get_score_details m = Ret d -> details_in_float_range m /\ d = breakdown m.
Proof.
  intros Hd.
  destruct (get_score_details_cases m) as [[R E]|[_ [msg E]]]; [|congruence].
  split; [assumption|congruence].
Qed.

Lemma calculate_score_ret (m : UserMetrics) (s : Z) :
  calculate_score m = Ret s ->
  in_float_range m /\ s = clamp (round (score_sum m)).
Proof.
  intros Hs.
  destruct (calculate_score_cases m) as [[R E]|[_ [msg E]]]; [|congruence].
  split; [assumption|congruence].
Qed.

Lemma in_float_range_details (m : UserMetrics) :
  in_float_range m -> details_in_float_range m.
Proof. intros (H1 & H2 & _ & H4). repeat split; assumption. Qed.

Lemma details_in_float_range_full (m : UserMetrics) :
  0 <= dispute_count m -> details_in_float_range m -> in_float_range m.
Proof.
  intros Hd (H1 & H2 & H4). split; [assumption|]. split; [assumption|].
  split; [|assumption]. apply to_float_cases_small. lia.
Qed.

(** ** Records that stay within the range of binary64 *)

Lemma small_quotient (a b : Z) :
  0 <= a <= 10 ^ 300 -> 0 < b ->
  (Qabs (inject_Z a / inject_Z b) < Float.times20_overflow)%Q.
Proof.
  intros [Ha Hm] Hb.
  assert (Hb' : (0 < inject_Z b)%Q)
    by (change 0%Q with (inject_Z 0); rewrite <- Zlt_Qlt; assumption).
  assert (Ha' : (0 <= inject_Z a)%Q)
    by (change 0%Q with (inject_Z 0); rewrite <- Zle_Qle; assumption).
  rewrite Qabs_pos.
  - apply Qle_lt_trans with (inject_Z (10 ^ 300)).
    + apply Qle_trans with (inject_Z a); [|rewrite <- Zle_Qle; exact Hm].
      apply Qle_shift_div_r; [assumption|].
      rewrite <- inject_Z_mult, <- Zle_Qle. nia.
    + unfold Float.times20_overflow. rewrite <- Zlt_Qlt.
      vm_compute. reflexivity.
  - apply Qle_shift_div_l; [assumption|]. rewrite Qmult_0_l. assumption.
Qed.

Lemma thirty_small : 30 <= 10 ^ 300.
Proof. apply Z.leb_le. vm_compute. reflexivity. Qed.

Lemma in_float_range_intro (m : UserMetrics) :
  0 <= account_age_days m <= 10 ^ 300 ->
  0 <= dispute_count m ->
  (0 < transaction_count m ->
   0 <= successful_transactions m <= 10 ^ 300) ->
  in_float_range m.
Proof.
  intros Ha Hd Hs. pose proof times20_below_overflow as Ht.
  pose proof thirty_small as H30.
  split; [|split; [|split]].
  - eapply Qlt_trans; [|exact Ht].
    apply (small_quotient (account_age_days m) 365); [assumption | lia].
  - intros Htc. apply small_quotient; auto.
  - apply to_float_cases_small. lia.
  - intros Hage. eapply Qlt_trans; [|exact Ht].
    apply (small_quotient (30 - account_age_days m) 3); lia.
Qed.

Lemma moderate_in_float_range (m : UserMetrics) :
  valid m -> moderate m -> in_float_range m.
Proof.
  intros (_ & _ & Hage & Hd & Hs & _) [Ma Ms].
  apply in_float_range_intro; auto.
Qed.

Lemma calculate_score_returns (m : UserMetrics) :
  valid m -> moderate m ->
  calculate_score m = Ret (clamp (round (score_sum m))).
Proof.
  intros Hv Hm.
  destruct (calculate_score_cases m) as [[_ E]|[R _]]; [exact E|].
  destruct (R (moderate_in_float_range m Hv Hm)).
Qed.




Lemma recorded_sum_details (m : UserMetrics) :
  0 <= dispute_count m -> round (recorded_sum m) = round (details_sum m).
Proof.
  intros Hd. apply round_ext; [reflexivity|].
  unfold recorded_sum, details_sum. cbn [rat addQ].
  destruct (Z.ltb_spec 0 (dispute_count m)); [reflexivity|].
  unfold dispute_penalty. replace (dispute_count m) with 0 by lia.
  change (inject_Z (Z.min (0 * 5) 30)) with 0%Q. ring.
Qed.

Lemma get_score_details_sum (m : UserMetrics) :
  0 <= dispute_count m -> details_in_float_range m ->
  exists d, get_score_details m = Ret d /\
            base_score d = 50 /\
            final_score d = clamp (round (details_sum m)).
Proof.
  intros Hd Hr.
  destruct (get_score_details_cases m) as [[_ E]|[R _]]; [|destruct (R Hr)].
  exists (breakdown m). split; [exact E|]. split; [reflexivity|].
  cbn [breakdown final_score]. rewrite recorded_sum_details by assumption.
  reflexivity.
Qed.

Lemma clamp_range (k : Z) : 0 <= clamp k <= 100.
Proof. unfold clamp. lia. Qed.

Lemma clamp_mono (j k : Z) : j <= k -> clamp j <= clamp k.
Proof. unfold clamp. lia. Qed.

Ltac valid_now :=
  unfold valid; cbn;
  repeat match goal with
         | |- _ /\ _ => split
         | |- (_ <= _)%Q => unfold Qle; cbn; lia
         | |- (_ <= _)%Z => lia
         | |- True => exact I
         end.

Ltac range_now :=
  unfold in_float_range, details_in_float_range;
  repeat match goal with
         | |- _ /\ _ => split
         | |- _ -> _ => intros _
         end;
  vm_compute; reflexivity.





(** C1.  On the low-trust user of the module's own demonstration the score
    is 16 while the breakdown records a final score of 31: the breakdown
    leaves out the wash-trading penalty that the score subtracts. *)
Theorem breakdown_final_score_differs :
  valid low_trust /\
  calculate_score low_trust = Ret 16 /\
  exists d, get_score_details low_trust = Ret d /\ final_score d = 31.
Proof.
  split; [valid_now|]. split.
  - vm_compute. reflexivity.
  - destruct (get_score_details_sum low_trust) as (d & Hr & _ & Hf).
    + cbn. lia.
    + range_now.
    + exists d. split; [assumption|]. rewrite Hf. vm_compute. reflexivity.
Qed.

(** When neither the low-variance bonus nor the wash-trading penalty
    applies, score and breakdown agree: if one of the two functions returns,
    so does the other, and the score is the final score of the breakdown. *)
Lemma score_matches_breakdown (m : UserMetrics) :
  valid m ->
  (low_variance_bonus m == 0)%Q -> (wash_trading_penalty m == 0)%Q ->
  (forall d, get_score_details m = Ret d ->
             calculate_score m = Ret (final_score d)) /\
  (forall s, calculate_score m = Ret s ->
             exists d, get_score_details m = Ret d /\ final_score d = s).
Proof.
  intros (_ & _ & _ & Hd & _) Hv Hw.
  assert (E : clamp (round (score_sum m)) = final_score (breakdown m)).
  { cbn [breakdown final_score]. rewrite recorded_sum_details by assumption.
    f_equal. apply round_ext; [reflexivity|].
    unfold score_sum, details_sum. cbn [rat addQ]. rewrite Hv, Hw. ring. }
  split.
  - intros d Hr. apply get_score_details_ret in Hr as [Hr ->].
    destruct (calculate_score_cases m) as [[_ Es]|[R _]];
      [congruence|].
    destruct (R (details_in_float_range_full m Hd Hr)).
  - intros s Hs. apply calculate_score_ret in Hs as [Hr ->].
    destruct (get_score_details_cases m) as [[_ Eb]|[R _]];
      [eauto|].
    destruct (R (in_float_range_details m Hr)).
Qed.

(** C2.  For a user to whom the low-variance bonus (3 points) and the
    wash-trading penalty (15 points) both apply, the breakdown holds three
    factors and no penalty: neither of the two is recorded. *)
Theorem breakdown_omits_variance_and_wash_trading :
  valid steady_small_trader /\
  (low_variance_bonus steady_small_trader == 3)%Q /\
  (wash_trading_penalty steady_small_trader == 15)%Q /\
  calculate_score steady_small_trader = Ret 72 /\
  get_score_details steady_small_trader =
    Ret {| base_score := 50;
           factors := <["account_age" := (1096 # 100)%Q]>
                      (<["success_rate" := (2000 # 100)%Q]>
                       (<["transaction_volume" := (312 # 100)%Q]> ∅));
           penalties := ∅;
           final_score := 84 |}.
Proof.
  split; [valid_now|].
  split; [reflexivity|]. split; [reflexivity|].
  split; vm_compute; reflexivity.
Qed.

(** Whatever the record, the breakdown has no entry besides four factors
    and three penalties. *)
Lemma breakdown_keys (m : UserMetrics) (d : ScoreDetails) :
  get_score_details m = Ret d ->
  dom (factors d) ⊆
    {[ "account_age"; "success_rate"; "transaction_volume"; "frequency" ]} /\
  dom (penalties d) ⊆ {[ "disputes"; "new_account"; "high_frequency" ]}.
Proof.
  intros Hd. apply get_score_details_ret in Hd as [_ ->].
  unfold breakdown, recorded_factors, recorded_penalties.
  cbn [factors penalties].
  destruct (0 <? transaction_count m);
  destruct (Qle_bool (1 # 10) (frequency_per_day m)
            && Qle_bool (frequency_per_day m) 5);
  destruct (0 <? dispute_count m);
  destruct (account_age_days m <? 30);
  destruct (Qlt_bool 10 (frequency_per_day m)).
  all: rewrite ?dom_insert_L, !dom_empty_L; split; set_unfold; tauto.
Qed.

(** The users of the module's demonstration: full tier, limited-or-better,
    blocked. *)
Example demonstration_scores :
  calculate_score high_trust = Ret 100 /\
  calculate_score medium_trust = Ret 81.
Proof. split; vm_compute; reflexivity. Qed.

Example log10_domain_error :
  math_log10 0 = Raise (ValueError "math domain error").
Proof. reflexivity. Qed.





Lemma age_rate (a : Z) :
  (inject_Z a / 365 * 10 == inject_Z a * (2 # 73))%Q.
Proof. field. Qed.

Lemma age_bonus_mono (m : UserMetrics) (a1 a2 : Z) :
  a1 <= a2 -> (age_bonus (with_age m a1) <= age_bonus (with_age m a2))%Q.
Proof.
  intros H. unfold age_bonus. cbn [account_age_days with_age].
  apply Q.min_le_compat_r. rewrite Zle_Qle in H. rewrite !age_rate. lra.
Qed.

Lemma age_bonus_cap (m : UserMetrics) : (age_bonus m <= 15)%Q.
Proof. apply Q.le_min_r. Qed.

Lemma age_bonus_saturated (m : UserMetrics) (a : Z) :
  548 <= a -> (age_bonus (with_age m a) == 15)%Q.
Proof.
  intros H. unfold age_bonus. cbn [account_age_days with_age].
  apply Q.min_r. rewrite Zle_Qle in H. change (inject_Z 548) with 548%Q in H.
  rewrite age_rate. lra.
Qed.

Lemma third (x : Q) : (x / 3 == x * (1 # 3))%Q.
Proof. field. Qed.

Lemma new_account_penalty_anti (m : UserMetrics) (a1 a2 : Z) :
  a1 <= a2 ->
  (new_account_penalty (with_age m a2)
   <= new_account_penalty (with_age m a1))%Q.
Proof.
  intros H. unfold new_account_penalty. cbn [account_age_days with_age].
  destruct (Z.ltb_spec a1 30) as [H1|H1], (Z.ltb_spec a2 30) as [H2|H2];
    try lia; try lra; rewrite ?third.
  - assert (Hq : (inject_Z (30 - a2) <= inject_Z (30 - a1))%Q)
      by (rewrite <- Zle_Qle; lia).
    lra.
  - assert (Hq : (inject_Z 0 <= inject_Z (30 - a1))%Q)
      by (rewrite <- Zle_Qle; lia).
    change (inject_Z 0) with 0%Q in Hq. lra.
Qed.

Lemma new_account_penalty_old (m : UserMetrics) (a : Z) :
  30 <= a -> new_account_penalty (with_age m a) = 0%Q.
Proof.
  intros H. unfold new_account_penalty. cbn [account_age_days with_age].
  rewrite (proj2 (Z.ltb_ge _ _)) by lia. reflexivity.
Qed.

Lemma score_sum_with_age (m : UserMetrics) (a : Z) :
  score_sum (with_age m a) =
  addQ (volume_bonus m)
    (50 + age_bonus (with_age m a) + success_rate_bonus m + frequency_bonus m
     + low_variance_bonus m
     - dispute_penalty m - new_account_penalty (with_age m a)
     - high_frequency_penalty m - wash_trading_penalty m)%Q.
Proof. reflexivity. Qed.

(** C8.  Two records that differ in the account age alone: whenever the
    engine returns a score for both, the older account does not score
    lower, and from 548 days on the score no longer depends on the age; the
    age bonus never exceeds 15 points.  The engine does return for both
    when the records meet the constraints of the data model and the counts
    do not exceed [10^300]. *)
Theorem score_monotone_in_account_age (m : UserMetrics) (a1 a2 : Z) :
  a1 <= a2 ->
  (age_bonus (with_age m a2) <= 15)%Q /\
  (forall s1 s2,
     calculate_score (with_age m a1) = Ret s1 ->
     calculate_score (with_age m a2) = Ret s2 ->
     s1 <= s2 /\ (548 <= a1 -> s1 = s2)) /\
  (valid (with_age m a1) -> moderate (with_age m a2) ->
   exists s1 s2,
     calculate_score (with_age m a1) = Ret s1 /\
     calculate_score (with_age m a2) = Ret s2).
Proof.
  intros H. split; [apply age_bonus_cap|]. split.
  - intros s1 s2 H1 H2.
    apply calculate_score_ret in H1 as [_ ->].
    apply calculate_score_ret in H2 as [_ ->].
    rewrite !score_sum_with_age.
    pose proof (age_bonus_mono m a1 a2 H) as Hb.
    pose proof (new_account_penalty_anti m a1 a2 H) as Hp.
    split.
    + apply clamp_mono, round_mono; [reflexivity|]. cbn [rat addQ]. lra.
    + intros Hs. f_equal. apply round_ext; [reflexivity|]. cbn [rat addQ].
      rewrite !age_bonus_saturated, !new_account_penalty_old by lia.
      reflexivity.
  - intros Hv [Ma Ms].
    assert (Hv1 := Hv). destruct Hv as (Htc & Hav & Hage & Hd & Hs & Hf & Hvar).
    cbn [account_age_days successful_transactions with_age] in Ma, Ms, Hage.
    eexists _, _. split; apply calculate_score_returns.
    + exact Hv1.
    + split; cbn [account_age_days successful_transactions with_age];
        [lia | assumption].
    + repeat split; try assumption.
      cbn [account_age_days with_age]. lia.
    + split; assumption.
Qed.

Lemma score_monotone_in_account_age_witness :
  (age_bonus (with_age medium_trust 600) <= 15)%Q /\
  (forall s1 s2,
     calculate_score (with_age medium_trust 10) = Ret s1 ->
     calculate_score (with_age medium_trust 600) = Ret s2 ->
     s1 <= s2 /\ (548 <= 10 -> s1 = s2)) /\
  (valid (with_age medium_trust 10) -> moderate (with_age medium_trust 600) ->
   exists s1 s2,
     calculate_score (with_age medium_trust 10) = Ret s1 /\
     calculate_score (with_age medium_trust 600) = Ret s2).
Proof. apply (score_monotone_in_account_age medium_trust 10 600). lia. Defined.

(** C9.  With no transactions the logarithm of the volume bonus is taken of
    2: neither the score nor the breakdown raises a domain error
    ([ValueError]), a breakdown that is returned has a volume factor and no
    success-rate factor, and both are returned when the account age does
    not exceed [10^300] days. *)
Theorem zero_transactions_no_success_rate (m : UserMetrics) :
  valid m -> transaction_count m = 0 ->
  (forall msg, calculate_score m <> Raise (ValueError msg)) /\
  (forall msg, get_score_details m <> Raise (ValueError msg)) /\
  (forall d, get_score_details m = Ret d ->
     factors d !! "success_rate" = None /\
     is_Some (factors d !! "transaction_volume")) /\
  (account_age_days m <= 10 ^ 300 ->
   (exists s, calculate_score m = Ret s) /\
   (exists d, get_score_details m = Ret d)).
Proof.
  intros (_ & _ & Hage & Hd & _) Htc.
  split; [|split; [|split]].
  - intros msg. destruct (calculate_score_cases m) as [[_ E]|[_ [x E]]];
      congruence.
  - intros msg. destruct (get_score_details_cases m) as [[_ E]|[_ [x E]]];
      congruence.
  - intros d Hr. apply get_score_details_ret in Hr as [_ ->].
    unfold breakdown, recorded_factors. cbn [factors]. rewrite Htc.
    change (0 <? 0) with false. cbv iota.
    destruct (Qle_bool (1 # 10) (frequency_per_day m)
              && Qle_bool (frequency_per_day m) 5).
    all: split; [by rewrite ?lookup_insert_ne, lookup_empty by done|].
    all: rewrite ?(lookup_insert_ne _ "frequency") by done.
    all: rewrite lookup_insert_eq; eauto.
  - intros Ha.
    assert (Hr : in_float_range m)
      by (apply in_float_range_intro; [lia | assumption | lia]).
    split.
    + destruct (calculate_score_cases m) as [[_ E]|[R _]];
        [eauto | destruct (R Hr)].
    + destruct (get_score_details_cases m) as [[_ E]|[R _]];
        [eauto | destruct (R (in_float_range_details m Hr))].
Qed.

Lemma zero_transactions_no_success_rate_witness :
  (forall msg, calculate_score no_activity <> Raise (ValueError msg)) /\
  (forall msg, get_score_details no_activity <> Raise (ValueError msg)) /\
  (forall d, get_score_details no_activity = Ret d ->
     factors d !! "success_rate" = None /\
     is_Some (factors d !! "transaction_volume")) /\
  (account_age_days no_activity <= 10 ^ 300 ->
   (exists s, calculate_score no_activity = Ret s) /\
   (exists d, get_score_details no_activity = Ret d)).
Proof.
  apply (zero_transactions_no_success_rate no_activity);
    [valid_now | reflexivity].
Defined.

End ScoreFacts.

(** * The tier classifier and the publication workflow *)

Module BackendFacts.
Import Backend.

(** C7.  The tier is a function of the score alone: FULL from 80 up,
    LIMITED from 50 to 79, BLOCKED below 50; the boundaries 80 and 50
    belong to the higher tier. *)
Theorem tier_boundaries (score : Z) :
  (80 <= score -> get_tier_from_score score = "FULL") /\
  (50 <= score < 80 -> get_tier_from_score score = "LIMITED") /\
  (score < 50 -> get_tier_from_score score = "BLOCKED") /\
  get_tier_from_score 80 = "FULL" /\
  get_tier_from_score 79 = "LIMITED" /\
  get_tier_from_score 50 = "LIMITED" /\
  get_tier_from_score 49 = "BLOCKED".
Proof.
  unfold get_tier_from_score. repeat split; intros;
    repeat match goal with
           | |- context [?a <=? ?b] => destruct (Z.leb_spec a b)
           end; try reflexivity; lia.
Qed.

Lemma tier_boundaries_witness :
  80 <= 93 /\ get_tier_from_score 93 = "FULL".
Proof. split; [lia | apply (proj1 (tier_boundaries 93)); lia]. Defined.

(** C6.  When the ledger is not connected, every identity and every score
    between 0 and 100 is answered with success and no transaction
    reference. *)
Theorem push_score_stub_mode (state : BlockchainState)
    (request : PushScoreRequest) :
  connected state = false -> 0 <= score request <= 100 ->
  exists response,
    push_score state request = Ok response /\
    success response = true /\
    transaction_hash response = None /\
    r_wallet_address response = wallet_address request /\
    r_score response = score request.
Proof.
  intros Hc Hs. unfold push_score. rewrite Hc.
  rewrite (proj2 (Z.leb_le _ _)), (proj2 (Z.leb_le _ _)) by lia.
  cbn. eexists. repeat split.
Qed.

Lemma push_score_stub_mode_witness :
  exists response,
    push_score blockchain_state {| wallet_address := "0xabc"; score := 0 |}
      = Ok response /\
    success response = true /\
    transaction_hash response = None /\
    r_wallet_address response = "0xabc" /\
    r_score response = 0.
Proof.
  apply (push_score_stub_mode blockchain_state
           {| wallet_address := "0xabc"; score := 0 |});
    [reflexivity | cbn; lia].
Defined.

(** C4, as the code has it.  With the ledger connected and the score
    between 0 and 100 the workflow answers at once, with success, the
    placeholder reference and a fixed message; no ledger operation takes
    part in the answer.  Whatever the connection status, a score in range
    is answered with a response and not with an exception. *)
Theorem push_score_connected (state : BlockchainState)
    (request : PushScoreRequest) :
  0 <= score request <= 100 ->
  (exists response, push_score state request = Ok response) /\
  (connected state = true ->
   push_score state request =
     Ok {| success := true;
           r_wallet_address := wallet_address request;
           r_score := score request;
           message := "Score pushed to blockchain";
           transaction_hash := Some "0x..." |}).
Proof.
  intros Hs. unfold push_score.
  rewrite (proj2 (Z.leb_le _ _)), (proj2 (Z.leb_le _ _)) by lia.
  cbn. split.
  - destruct (connected state); eexists; reflexivity.
  - intros ->. reflexivity.
Qed.

Lemma push_score_connected_witness :
  push_score connected_state {| wallet_address := "0xabc"; score := 100 |} =
    Ok {| success := true; r_wallet_address := "0xabc"; r_score := 100;
          message := "Score pushed to blockchain";
          transaction_hash := Some "0x..." |}.
Proof.
  apply (push_score_connected connected_state
           {| wallet_address := "0xabc"; score := 100 |});
    [cbn; lia | reflexivity].
Defined.

(** C4, as the specification has it, fails: on a connected ledger whose
    submission is reverted (receipt status 0, so the ledger operation
    returns no hash) the workflow still reports success with a transaction
    reference. *)
Lemma push_score_ignores_ledger_failure :
  OracleListener.push_score Ret (OracleListener.ready_listener 0) "0xabc" 85
    = Ret None /\
  exists response,
    push_score connected_state {| wallet_address := "0xabc"; score := 85 |}
      = Ok response /\
    success response = true /\
    transaction_hash response = Some "0x...".
Proof.
  split; [vm_compute; reflexivity|].
  eexists. split; [reflexivity|]. split; reflexivity.
Qed.

End BackendFacts.

(** * The oracle listener *)

Module OracleFacts.
Import OracleListener.

Section PushScore.
Variable to_checksum_address : string -> result string.

Ltac refute_confirmed :=
  exists None; split; [reflexivity|];
  intros h (? & ? & ? & ? & ? & ? & ? & ? & ? & ? & ? & H);
  decompose [and] H; clear H; first [congruence | lia].

(** C10.  [push_score] never raises.  It returns the hash of the
    transaction exactly when the submission was confirmed: contract and
    account configured, score between 0 and 100, every web3 call returned
    and the receipt has status 1.  In every other case (unconfigured, score
    out of range, an exception of any kind, another status) it returns
    [None]. *)
Theorem push_score_never_raises (self : OracleListener)
    (user_address : string) (score : Z) :
  (exists r,
     push_score to_checksum_address self user_address score = Ret r /\
     match r with
     | Some h => confirmed to_checksum_address self user_address score h
     | None =>
         forall h, ~ confirmed to_checksum_address self user_address score h
     end) /\
  (oracle_contract self = None \/ account self = None ->
   push_score to_checksum_address self user_address score = Ret None) /\
  (~ 0 <= score <= 100 ->
   push_score to_checksum_address self user_address score = Ret None).
Proof.
  split; [|split].
  - unfold push_score.
    destruct (oracle_contract self) as [contract|] eqn:Hc;
      [|refute_confirmed].
    destruct (account self) as [acct|] eqn:Ha; [|refute_confirmed].
    destruct ((0 <=? score) && (score <=? 100)) eqn:Hr; cbn [negb];
      [|cbn; apply andb_false_iff in Hr;
        rewrite Z.leb_gt, Z.leb_gt in Hr; refute_confirmed].
    apply andb_true_iff in Hr. rewrite !Z.leb_le in Hr.
    unfold the_w3.
    destruct (to_checksum_address user_address) as [a|e] eqn:H1;
      cbn [mbind result_bind try_except];
      [|destruct e; refute_confirmed].
    destruct (pushScore contract a score) as [fn|e] eqn:H2;
      cbn [mbind result_bind try_except];
      [|destruct e; refute_confirmed].
    destruct (w3 self) as [w|] eqn:Hw;
      cbn [mbind result_bind try_except]; [|refute_confirmed].
    destruct (get_transaction_count (eth w) (address acct)) as [nonce|e] eqn:H3;
      cbn [mbind result_bind try_except];
      [|destruct e; refute_confirmed].
    destruct (gas_price (eth w)) as [price|e] eqn:H4;
      cbn [mbind result_bind try_except];
      [|destruct e; refute_confirmed].
    destruct (build_transaction fn _) as [tx|e] eqn:H5;
      cbn [mbind result_bind try_except];
      [|destruct e; refute_confirmed].
    destruct (sign_transaction (eth w) tx (private_key self))
      as [signed_tx|e] eqn:H6;
      cbn [mbind result_bind try_except];
      [|destruct e; refute_confirmed].
    destruct (send_raw_transaction (eth w) (raw_transaction signed_tx))
      as [tx_hash|e] eqn:H7;
      cbn [mbind result_bind try_except];
      [|destruct e; refute_confirmed].
    destruct (wait_for_transaction_receipt (eth w) tx_hash)
      as [receipt|e] eqn:H8;
      cbn [mbind result_bind try_except];
      [|destruct e; refute_confirmed].
    unfold getitem.
    destruct (receipt !! "status") as [status|] eqn:H9;
      cbn [mbind result_bind try_except]; [|refute_confirmed].
    destruct (Z.eqb_spec status 1) as [->|Hne];
      cbn [mret result_ret try_except]; [|refute_confirmed].
    exists (Some (hex tx_hash)). split; [reflexivity|].
    unfold confirmed. exists contract, acct, a, fn, w, nonce, price, tx,
      signed_tx, tx_hash, receipt.
    repeat split; try assumption; lia.
  - unfold push_score. intros [-> | Ha]; [reflexivity|].
    rewrite Ha. destruct (oracle_contract self); reflexivity.
  - intros Hr. unfold push_score.
    destruct (oracle_contract self); [|reflexivity].
    destruct (account self); [|reflexivity].
    destruct ((0 <=? score) && (score <=? 100)) eqn:Hb; [|reflexivity].
    apply andb_true_iff in Hb. rewrite !Z.leb_le in Hb. lia.
Qed.

End PushScore.

Lemma push_score_never_raises_witness :
  push_score Ret fresh_listener "0xabc" 85 = Ret None /\
  push_score Ret (ready_listener 1) "0xabc" 85 = Ret (Some "0xfeed") /\
  push_score Ret (ready_listener 1) "0xabc" 101 = Ret None.
Proof.
  split; [|split].
  - apply (proj1 (proj2 (push_score_never_raises Ret fresh_listener
                             "0xabc" 85))).
    left. reflexivity.
  - destruct (push_score_never_raises Ret (ready_listener 1) "0xabc" 85)
      as [(r & Hr & _) _].
    rewrite Hr. revert Hr. vm_compute. intros Hr. symmetry. exact Hr.
  - apply (proj2 (proj2 (push_score_never_raises Ret (ready_listener 1)
                             "0xabc" 101))).
    lia.
Defined.

End OracleFacts.

(** * Further properties of the score engine *)

Module ScoreProperties.
Import Real RealFacts ScoreService ScoreFacts.

Lemma Qlt_bool_iff (x y : Q) : Qlt_bool x y = true <-> (x < y)%Q.
Proof.
  unfold Qlt_bool. rewrite negb_true_iff.
  destruct (Qle_bool y x) eqn:H.
  - apply Qle_bool_iff in H. split; [discriminate | intros; lra].
  - split; [|reflexivity]. intros _.
    destruct (Qlt_le_dec x y) as [|Hle]; [assumption|].
    apply Qle_bool_iff in Hle. congruence.
Qed.

Lemma score_sum_with_disputes (m : UserMetrics) (d : Z) :
  score_sum (with_disputes m d) =
  addQ (volume_bonus m)
    (50 + age_bonus m + success_rate_bonus m + frequency_bonus m
     + low_variance_bonus m
     - inject_Z (Z.min (d * 5) 30) - new_account_penalty m
     - high_frequency_penalty m - wash_trading_penalty m)%Q.
Proof. reflexivity. Qed.

(** Two records that differ in the dispute count alone: whenever the engine
    returns a score for both, more disputes do not score higher, and from
    six disputes on the score no longer changes.  The engine does return
    for both when the records meet the constraints of the data model and
    the counts do not exceed [10^300]. *)
Theorem score_antitone_in_disputes (m : UserMetrics) (d1 d2 : Z) :
  d1 <= d2 ->
  (forall s1 s2,
     calculate_score (with_disputes m d1) = Ret s1 ->
     calculate_score (with_disputes m d2) = Ret s2 ->
     s2 <= s1 /\ (6 <= d1 -> s1 = s2)) /\
  (valid (with_disputes m d1) -> moderate m ->
   exists s1 s2,
     calculate_score (with_disputes m d1) = Ret s1 /\
     calculate_score (with_disputes m d2) = Ret s2).
Proof.
  intros H. split.
  - intros s1 s2 H1 H2.
    apply calculate_score_ret in H1 as [_ ->].
    apply calculate_score_ret in H2 as [_ ->].
    rewrite !score_sum_with_disputes. split.
    + apply clamp_mono, round_mono; [reflexivity|]. cbn [rat addQ].
      assert (Hq : (inject_Z (Z.min (d1 * 5) 30)
                    <= inject_Z (Z.min (d2 * 5) 30))%Q)
        by (rewrite <- Zle_Qle; lia).
      lra.
    + intros H6. rewrite !Z.min_r by lia. reflexivity.
  - intros Hv Hm. assert (Hv1 := Hv).
    destruct Hv as (Htc & Hav & Hage & Hd & Hs & Hf & Hvar).
    cbn [dispute_count with_disputes] in Hd.
    eexists _, _. split; apply calculate_score_returns.
    + exact Hv1.
    + exact Hm.
    + repeat split; try assumption. cbn [dispute_count with_disputes]. lia.
    + exact Hm.
Qed.

Lemma score_antitone_in_disputes_witness :
  (forall s1 s2,
     calculate_score (with_disputes medium_trust 0) = Ret s1 ->
     calculate_score (with_disputes medium_trust 4) = Ret s2 ->
     s2 <= s1 /\ (6 <= 0 -> s1 = s2)) /\
  (valid (with_disputes medium_trust 0) -> moderate medium_trust ->
   exists s1 s2,
     calculate_score (with_disputes medium_trust 0) = Ret s1 /\
     calculate_score (with_disputes medium_trust 4) = Ret s2).
Proof. apply (score_antitone_in_disputes medium_trust 0 4). lia. Defined.

Lemma success_rate_bonus_mono (m : UserMetrics) (s1 s2 : Z) :
  s1 <= s2 ->
  (success_rate_bonus (with_successful m s1)
   <= success_rate_bonus (with_successful m s2))%Q.
Proof.
  intros H. unfold success_rate_bonus.
  cbn [transaction_count successful_transactions with_successful].
  destruct (Z.ltb_spec 0 (transaction_count m)) as [Htc|]; [|lra].
  rewrite Zle_Qle in H.
  assert (Hinv : (0 <= / inject_Z (transaction_count m))%Q).
  { apply Qinv_le_0_compat. change 0%Q with (inject_Z 0).
    rewrite <- Zle_Qle. lia. }
  unfold Qdiv. apply Qmult_le_compat_r; [|lra].
  apply Qmult_le_compat_r; assumption.
Qed.

(** Two records that differ in the number of successful transactions alone:
    whenever the engine returns a score for both, more successes do not
    score lower.  The engine does return for both when the records meet the
    constraints of the data model and the counts do not exceed [10^300]. *)
Theorem score_monotone_in_successes (m : UserMetrics) (s1 s2 : Z) :
  s1 <= s2 ->
  (forall r1 r2,
     calculate_score (with_successful m s1) = Ret r1 ->
     calculate_score (with_successful m s2) = Ret r2 ->
     r1 <= r2) /\
  (valid (with_successful m s1) -> moderate (with_successful m s2) ->
   exists r1 r2,
     calculate_score (with_successful m s1) = Ret r1 /\
     calculate_score (with_successful m s2) = Ret r2).
Proof.
  intros H. split.
  - intros r1 r2 H1 H2.
    apply calculate_score_ret in H1 as [_ ->].
    apply calculate_score_ret in H2 as [_ ->].
    apply clamp_mono, round_mono; [reflexivity|].
    pose proof (success_rate_bonus_mono m s1 s2 H) as Hb.
    unfold score_sum. cbn [rat addQ].
    change (age_bonus (with_successful m s1)) with (age_bonus m).
    change (age_bonus (with_successful m s2)) with (age_bonus m).
    change (volume_bonus (with_successful m s1)) with (volume_bonus m).
    change (volume_bonus (with_successful m s2)) with (volume_bonus m).
    change (frequency_bonus (with_successful m s1)) with (frequency_bonus m).
    change (frequency_bonus (with_successful m s2)) with (frequency_bonus m).
    change (low_variance_bonus (with_successful m s1))
      with (low_variance_bonus m).
    change (low_variance_bonus (with_successful m s2))
      with (low_variance_bonus m).
    change (dispute_penalty (with_successful m s1)) with (dispute_penalty m).
    change (dispute_penalty (with_successful m s2)) with (dispute_penalty m).
    change (new_account_penalty (with_successful m s1))
      with (new_account_penalty m).
    change (new_account_penalty (with_successful m s2))
      with (new_account_penalty m).
    change (high_frequency_penalty (with_successful m s1))
      with (high_frequency_penalty m).
    change (high_frequency_penalty (with_successful m s2))
      with (high_frequency_penalty m).
    change (wash_trading_penalty (with_successful m s1))
      with (wash_trading_penalty m).
    change (wash_trading_penalty (with_successful m s2))
      with (wash_trading_penalty m).
    lra.
  - intros Hv [Ma Ms]. assert (Hv1 := Hv).
    destruct Hv as (Htc & Hav & Hage & Hd & Hs & Hf & Hvar).
    cbn [account_age_days successful_transactions with_successful]
      in Ma, Ms, Hs.
    eexists _, _. split; apply calculate_score_returns.
    + exact Hv1.
    + split; cbn [account_age_days successful_transactions with_successful];
        [assumption | lia].
    + repeat split; try assumption.
      cbn [successful_transactions with_successful]. lia.
    + split; assumption.
Qed.

Lemma score_monotone_in_successes_witness :
  (forall r1 r2,
     calculate_score (with_successful medium_trust 10) = Ret r1 ->
     calculate_score (with_successful medium_trust 50) = Ret r2 ->
     r1 <= r2) /\
  (valid (with_successful medium_trust 10) ->
   moderate (with_successful medium_trust 50) ->
   exists r1 r2,
     calculate_score (with_successful medium_trust 10) = Ret r1 /\
     calculate_score (with_successful medium_trust 50) = Ret r2).
Proof. apply (score_monotone_in_successes medium_trust 10 50). lia. Defined.

Lemma wash_trading_penalty_anti (m : UserMetrics) (v1 v2 : Q) :
  (v1 <= v2)%Q ->
  (wash_trading_penalty (with_avg_value m v2)
   <= wash_trading_penalty (with_avg_value m v1))%Q.
Proof.
  intros H. unfold wash_trading_penalty.
  cbn [avg_transaction_value frequency_per_day with_avg_value].
  destruct (Qlt_bool 5 (frequency_per_day m)); rewrite ?andb_false_r; [|lra].
  rewrite !andb_true_r.
  destruct (Qlt_bool v2 10) eqn:H2.
  - apply Qlt_bool_iff in H2.
    rewrite (proj2 (Qlt_bool_iff v1 10)) by lra. lra.
  - destruct (Qlt_bool v1 10); lra.
Qed.

(** Two records that differ in the average transaction value alone:
    whenever the engine returns a score for both, the larger value does not
    score lower, and the two scores are equal when both values are at least
    10.  The engine does return for both when the records meet the
    constraints of the data model and the counts do not exceed [10^300]. *)
Theorem score_monotone_in_avg_value (m : UserMetrics) (v1 v2 : Q) :
  (v1 <= v2)%Q ->
  (forall r1 r2,
     calculate_score (with_avg_value m v1) = Ret r1 ->
     calculate_score (with_avg_value m v2) = Ret r2 ->
     r1 <= r2 /\ ((10 <= v1)%Q -> r1 = r2)) /\
  (valid (with_avg_value m v1) -> moderate m ->
   exists r1 r2,
     calculate_score (with_avg_value m v1) = Ret r1 /\
     calculate_score (with_avg_value m v2) = Ret r2).
Proof.
  intros H. split.
  - intros r1 r2 H1 H2.
    apply calculate_score_ret in H1 as [_ ->].
    apply calculate_score_ret in H2 as [_ ->].
    pose proof (wash_trading_penalty_anti m v1 v2 H) as Hp.
    split.
    + apply clamp_mono, round_mono; [reflexivity|].
      unfold score_sum. cbn [rat addQ].
      change (volume_bonus (with_avg_value m v1)) with (volume_bonus m).
      change (volume_bonus (with_avg_value m v2)) with (volume_bonus m).
      unfold age_bonus, success_rate_bonus, frequency_bonus,
        low_variance_bonus, dispute_penalty, new_account_penalty,
        high_frequency_penalty.
      cbn [transaction_count account_age_days dispute_count
           successful_transactions frequency_per_day variance_score
           with_avg_value].
      lra.
    + intros H10. do 2 f_equal. unfold score_sum, wash_trading_penalty.
      cbn [avg_transaction_value frequency_per_day with_avg_value].
      assert (E1 : Qlt_bool v1 10 = false).
      { apply not_true_is_false. rewrite Qlt_bool_iff. lra. }
      assert (E2 : Qlt_bool v2 10 = false).
      { apply not_true_is_false. rewrite Qlt_bool_iff. lra. }
      rewrite E1, E2. reflexivity.
  - intros Hv Hm. assert (Hv1 := Hv).
    destruct Hv as (Htc & Hav & Hage & Hd & Hs & Hf & Hvar).
    cbn [avg_transaction_value with_avg_value] in Hav.
    eexists _, _. split; apply calculate_score_returns.
    + exact Hv1.
    + exact Hm.
    + repeat split; try assumption.
      cbn [avg_transaction_value with_avg_value]. lra.
    + exact Hm.
Qed.

Lemma score_monotone_in_avg_value_witness :
  (forall r1 r2,
     calculate_score (with_avg_value low_trust 5) = Ret r1 ->
     calculate_score (with_avg_value low_trust 50) = Ret r2 ->
     r1 <= r2 /\ ((10 <= 5)%Q -> r1 = r2)) /\
  (valid (with_avg_value low_trust 5) -> moderate low_trust ->
   exists r1 r2,
     calculate_score (with_avg_value low_trust 5) = Ret r1 /\
     calculate_score (with_avg_value low_trust 50) = Ret r2).
Proof.
  apply (score_monotone_in_avg_value low_trust 5 50). unfold Qle. cbn. lia.
Defined.


Lemma score_matches_breakdown_witness :
  (forall d, get_score_details medium_trust = Ret d ->
             calculate_score medium_trust = Ret (final_score d)) /\
  (forall s, calculate_score medium_trust = Ret s ->
             exists d, get_score_details medium_trust = Ret d /\
                       final_score d = s).
Proof.
  apply (score_matches_breakdown medium_trust);
    [valid_now | reflexivity | reflexivity].
Defined.

(** What the breakdown holds under each of its seven keys. *)
Lemma breakdown_lookup (m : UserMetrics) (d : ScoreDetails) :
  get_score_details m = Ret d ->
  factors d !! "account_age" = Some (round2Q (age_bonus m)) /\
  factors d !! "success_rate" =
    (if 0 <? transaction_count m
     then Some (round2Q (success_rate_bonus m)) else None) /\
  factors d !! "transaction_volume" = Some (round2 (volume_bonus m)) /\
  factors d !! "frequency" =
    (if Qle_bool (1 # 10) (frequency_per_day m)
        && Qle_bool (frequency_per_day m) 5
     then Some (round2Q (frequency_bonus m)) else None) /\
  penalties d !! "disputes" =
    (if 0 <? dispute_count m then Some (dispute_penalty m) else None) /\
  penalties d !! "new_account" =
    (if account_age_days m <? 30
     then Some (round2Q (new_account_penalty m)) else None) /\
  penalties d !! "high_frequency" =
    (if Qlt_bool 10 (frequency_per_day m)
     then Some (round2Q (high_frequency_penalty m)) else None).
Proof.
  intros Hd. apply get_score_details_ret in Hd as [_ ->].
  unfold breakdown, recorded_factors, recorded_penalties.
  cbn [factors penalties].
  destruct (0 <? transaction_count m);
  destruct (Qle_bool (1 # 10) (frequency_per_day m)
            && Qle_bool (frequency_per_day m) 5);
  destruct (0 <? dispute_count m);
  destruct (account_age_days m <? 30);
  destruct (Qlt_bool 10 (frequency_per_day m)).
  all: repeat split.
  all: rewrite ?lookup_insert_ne by done.
  all: first [ apply lookup_empty | apply lookup_insert_eq ].
Qed.


Lemma is_Some_if {A : Type} (b : bool) (v : A) :
  is_Some (if b then Some v else None) <-> b = true.
Proof. destruct b; split; eauto; intros H; [inversion H|]; discriminate. Qed.

(** The breakdown records a contribution exactly when its condition in the
    source holds: the age and volume factors always, the success rate with
    at least one transaction, the frequency factor between 0.1 and 5 per
    day, a penalty for any dispute, for an account younger than 30 days and
    for more than 10 transactions per day; and it has no other entry. *)
Theorem breakdown_records_what_applies (m : UserMetrics) (d : ScoreDetails) :
  get_score_details m = Ret d ->
  is_Some (factors d !! "account_age") /\
  is_Some (factors d !! "transaction_volume") /\
  (is_Some (factors d !! "success_rate") <-> 0 < transaction_count m) /\
  (is_Some (factors d !! "frequency") <->
   (1 # 10 <= frequency_per_day m)%Q /\ (frequency_per_day m <= 5)%Q) /\
  (is_Some (penalties d !! "disputes") <-> 0 < dispute_count m) /\
  (is_Some (penalties d !! "new_account") <-> account_age_days m < 30) /\
  (is_Some (penalties d !! "high_frequency") <->
   (10 < frequency_per_day m)%Q) /\
  dom (factors d) ⊆
    {[ "account_age"; "success_rate"; "transaction_volume"; "frequency" ]} /\
  dom (penalties d) ⊆ {[ "disputes"; "new_account"; "high_frequency" ]}.
Proof.
  intros Hd. destruct (breakdown_keys m d Hd) as [Kf Kp].
  destruct (breakdown_lookup m d Hd) as (-> & -> & -> & -> & -> & -> & ->).
  rewrite !is_Some_if, !Z.ltb_lt, andb_true_iff, !Qle_bool_iff, Qlt_bool_iff.
  repeat split; eauto; tauto.
Qed.

Lemma breakdown_records_what_applies_witness :
  exists d, get_score_details no_activity = Ret d /\
            ~ is_Some (factors d !! "success_rate") /\
            ~ is_Some (penalties d !! "new_account").
Proof.
  destruct (ScoreFacts.get_score_details_sum no_activity) as (d & Hd & _);
    [cbn; lia | range_now |].
  exists d. split; [assumption|].
  destruct (breakdown_records_what_applies no_activity d Hd)
    as (_ & _ & H1 & _ & _ & H2 & _).
  split; [rewrite H1 | rewrite H2]; cbn; lia.
Defined.


(** ** Bounds of the recorded magnitudes *)

Lemma pow_cross_le_le (n a a' : Z) (b b' : positive) :
  1 <= n -> 0 <= a -> a * Z.pos b' <= a' * Z.pos b ->
  n ^ Z.pos b <= 10 ^ a -> n ^ Z.pos b' <= 10 ^ a'.
Proof.
  intros Hn Ha Hc Hle.
  assert (Ha' : 0 <= a') by nia.
  destruct (Z.le_gt_cases (n ^ Z.pos b') (10 ^ a')) as [|Hgt]; [assumption|].
  exfalso.
  assert (H1 : (10 ^ a') ^ Z.pos b < (n ^ Z.pos b') ^ Z.pos b).
  { apply Z.pow_lt_mono_l; [lia|].
    split; [apply Z.pow_nonneg; lia | assumption]. }
  assert (H2 : (n ^ Z.pos b) ^ Z.pos b' <= (10 ^ a) ^ Z.pos b').
  { apply Z.pow_le_mono_l. split; [apply Z.pow_nonneg; lia | assumption]. }
  assert (H3 : 10 ^ (a * Z.pos b') <= 10 ^ (a' * Z.pos b)).
  { apply Z.pow_le_mono_r; lia. }
  rewrite <- !Z.pow_mul_r in H1, H2 by lia.
  rewrite (Z.mul_comm (Z.pos b') (Z.pos b)) in H1. lia.
Qed.

(** Scaling keeps the order: [x <= r] gives [x * k <= r * k]. *)
Lemma leQ_scale (x : real) (r : Q) (k : positive) :
  leQ x r = true -> leQ (scale x k) (r * inject_Z (Z.pos k)) = true.
Proof.
  unfold leQ. cbn [rat arg scale]. rewrite !le10_spec.
  set (t := Qred (r - rat x)).
  set (t' := Qred (r * inject_Z (Z.pos k) - rat x * inject_Z (Z.pos k))).
  assert (E : (t' == t * inject_Z (Z.pos k))%Q).
  { unfold t, t'. rewrite !Qred_correct. ring. }
  intros [Ha Hle].
  unfold Qeq in E. cbn [Qnum Qden Qmult inject_Z] in E.
  rewrite Pos.mul_1_r in E.
  assert (Ha' : 0 <= Qnum t') by nia.
  split; [assumption|].
  rewrite Pos2Z.inj_pow.
  apply (pow_cross_le_le _ (Qnum t * Z.pos k) _ (Qden t)).
  - pose proof (Z.pow_pos_nonneg (Z.pos (arg x)) (Z.pos k)). lia.
  - lia.
  - lia.
  - rewrite <- Z.pow_mul_r, (Z.mul_comm (Z.pos k)), !Z.pow_mul_r by lia.
    apply Z.pow_le_mono_l. split; [apply Z.pow_nonneg; lia | assumption].
Qed.

Lemma round_ge_floor (x : real) : Qfloor (rat x) <= round x.
Proof.
  destruct (round_spec x) as [Hb _].
  destruct (Z.lt_ge_cases (round x) (Qfloor (rat x))) as [Hlt|]; [|lia].
  rewrite below_low in Hb; [discriminate|].
  pose proof (Z.log2_nonneg (Z.pos (arg x))).
  pose proof (Z.div_pos (3 * Z.log2 (Z.pos (arg x))) 10). lia.
Qed.

Lemma round_of_Z (z : Z) : round (of_Q (inject_Z z)) = z.
Proof.
  rewrite round_of_Q. unfold round_half_even_Q. rewrite Qfloor_Z.
  destruct (Qcompare_spec (inject_Z z - inject_Z z) (1 # 2));
    [lra | reflexivity | lra].
Qed.

Lemma round2Q_lower (lo : Z) (q : Q) :
  (inject_Z lo <= q)%Q -> (inject_Z lo <= round2Q q)%Q.
Proof.
  intros H. unfold round2Q, round2.
  assert (Hr : lo * 100 <= round (scale (of_Q q) 100)).
  { rewrite <- (round_of_Z (lo * 100)). apply round_mono; [reflexivity|].
    cbn [rat of_Q scale]. rewrite inject_Z_mult.
    change (inject_Z (Z.pos 100)) with 100%Q. change (inject_Z 100) with 100%Q.
    lra. }
  revert Hr. generalize (round (scale (of_Q q) 100)). intros k Hk.
  unfold Qle, Qdiv, Qmult, Qinv, inject_Z. cbn. lia.
Qed.

Lemma round2Q_upper (hi : Z) (q : Q) :
  (q <= inject_Z hi)%Q -> (round2Q q <= inject_Z hi)%Q.
Proof.
  intros H. unfold round2Q, round2.
  assert (Hr : round (scale (of_Q q) 100) <= hi * 100).
  { rewrite <- (round_of_Z (hi * 100)). apply round_mono; [reflexivity|].
    cbn [rat of_Q scale]. rewrite inject_Z_mult.
    change (inject_Z (Z.pos 100)) with 100%Q. change (inject_Z 100) with 100%Q.
    lra. }
  revert Hr. generalize (round (scale (of_Q q) 100)). intros k Hk.
  unfold Qle, Qdiv, Qmult, Qinv, inject_Z. cbn. lia.
Qed.

Lemma age_bonus_range (m : UserMetrics) :
  0 <= account_age_days m -> (0 <= age_bonus m <= 15)%Q.
Proof.
  intros H. rewrite Zle_Qle in H. change (inject_Z 0) with 0%Q in H.
  unfold age_bonus.
  destruct (Q.min_spec (inject_Z (account_age_days m) / 365 * 10) 15)
    as [[H1 ->] | [H1 ->]]; rewrite ?age_rate in *; lra.
Qed.

Lemma success_rate_bonus_range (m : UserMetrics) :
  0 <= successful_transactions m ->
  (0 <= success_rate_bonus m)%Q /\
  (successful_transactions m <= transaction_count m ->
   (success_rate_bonus m <= 20)%Q).
Proof.
  intros Hs. unfold success_rate_bonus.
  destruct (Z.ltb_spec 0 (transaction_count m)) as [Htc|]; [|split; intros; lra].
  rewrite Zle_Qle in Hs. change (inject_Z 0) with 0%Q in Hs.
  assert (Hpos : (0 < inject_Z (transaction_count m))%Q).
  { change 0%Q with (inject_Z 0). rewrite <- Zlt_Qlt. assumption. }
  split.
  - assert (0 <= inject_Z (successful_transactions m)
                  / inject_Z (transaction_count m))%Q.
    { apply Qle_shift_div_l; [assumption | lra]. }
    lra.
  - intros Hle. rewrite Zle_Qle in Hle.
    assert (inject_Z (successful_transactions m)
            / inject_Z (transaction_count m) <= 1)%Q.
    { apply Qle_shift_div_r; [assumption | lra]. }
    lra.
Qed.

Lemma frequency_bonus_range (m : UserMetrics) :
  Qle_bool (1 # 10) (frequency_per_day m)
  && Qle_bool (frequency_per_day m) 5 = true ->
  (2 <= frequency_bonus m <= 10)%Q.
Proof.
  intros H. unfold frequency_bonus. rewrite H.
  apply andb_true_iff in H. destruct H as [H1 H2].
  apply Qle_bool_iff in H1, H2.
  pose proof (Qabs_nonneg (frequency_per_day m - 1)) as Ha.
  assert (Hb : (Qabs (frequency_per_day m - 1) <= 4)%Q).
  { apply Qabs_Qle_condition. split; lra. }
  destruct (Q.min_spec (10 - Qabs (frequency_per_day m - 1) * 2) 10)
    as [[Hm ->] | [Hm ->]];
  match goal with
  | |- (_ <= Qmax 0 ?t <= _)%Q =>
      destruct (Q.max_spec 0 t) as [[Hx ->] | [Hx ->]]
  end; lra.
Qed.

Lemma dispute_penalty_range (m : UserMetrics) :
  0 < dispute_count m -> (5 <= dispute_penalty m <= 30)%Q.
Proof.
  intros H. unfold dispute_penalty.
  change 5%Q with (inject_Z 5). change 30%Q with (inject_Z 30).
  rewrite <- !Zle_Qle. lia.
Qed.

Lemma new_account_penalty_range (m : UserMetrics) :
  0 <= account_age_days m -> (0 <= new_account_penalty m <= 10)%Q.
Proof.
  intros H. unfold new_account_penalty.
  destruct (Z.ltb_spec (account_age_days m) 30); [|lra].
  assert (H1 : (inject_Z 0 <= inject_Z (30 - account_age_days m))%Q)
    by (rewrite <- Zle_Qle; lia).
  assert (H2 : (inject_Z (30 - account_age_days m) <= inject_Z 30)%Q)
    by (rewrite <- Zle_Qle; lia).
  change (inject_Z 0) with 0%Q in H1. change (inject_Z 30) with 30%Q in H2.
  rewrite third. lra.
Qed.

Lemma high_frequency_penalty_range (m : UserMetrics) :
  (0 <= high_frequency_penalty m <= 20)%Q.
Proof.
  unfold high_frequency_penalty.
  destruct (Qlt_bool 10 (frequency_per_day m)) eqn:H; [|lra].
  apply Qlt_bool_iff in H.
  destruct (Q.min_spec ((frequency_per_day m - 10) * 2) 20)
    as [[Hm ->] | [Hm ->]]; lra.
Qed.

(** The volume bonus is [3 log10 n] while that is at most 10, and 10
    otherwise; to two decimals it lies between 0 and 10. *)
Lemma volume_bonus_range (m : UserMetrics) :
  (0 <= round2 (volume_bonus m) <= 10)%Q.
Proof.
  unfold volume_bonus, minQ.
  set (x := scale {| rat := 0; arg := Z.to_pos (Z.max (transaction_count m) 1 + 1) |} 3).
  destruct (leQ x 10) eqn:Hle.
  - unfold round2.
    assert (H0 : 0 <= round (scale x 100)).
    { pose proof (round_ge_floor (scale x 100)) as H.
      unfold x in H at 1. cbn [rat scale] in H.
      change (Qfloor (0 * inject_Z 3 * inject_Z 100)) with 0 in H. exact H. }
    assert (H1 : round (scale x 100) <= 1000).
    { apply round_least. unfold below.
      rewrite (leQ_ltQ (scale x 100) (10 * inject_Z 100));
        [reflexivity | reflexivity | apply leQ_scale, Hle]. }
    revert H0 H1. generalize (round (scale x 100)). intros k H0 H1.
    unfold Qle, Qdiv, Qmult, Qinv, inject_Z. cbn. lia.
  - vm_compute. split; discriminate.
Qed.

(** Every magnitude the breakdown records stays within the cap that the
    source names for it: age at most 15, volume at most 10, frequency
    between 2 and 10, disputes between 5 and 30, new account at most 10,
    high frequency at most 20; the success rate is at most 20 as long as
    the successful transactions do not exceed the transactions. *)
Theorem breakdown_within_caps (m : UserMetrics) (d : ScoreDetails) :
  valid m -> get_score_details m = Ret d ->
  (forall v, factors d !! "account_age" = Some v -> (0 <= v <= 15)%Q) /\
  (forall v, factors d !! "success_rate" = Some v ->
     (0 <= v)%Q /\
     (successful_transactions m <= transaction_count m -> (v <= 20)%Q)) /\
  (forall v, factors d !! "transaction_volume" = Some v ->
     (0 <= v <= 10)%Q) /\
  (forall v, factors d !! "frequency" = Some v -> (2 <= v <= 10)%Q) /\
  (forall v, penalties d !! "disputes" = Some v -> (5 <= v <= 30)%Q) /\
  (forall v, penalties d !! "new_account" = Some v -> (0 <= v <= 10)%Q) /\
  (forall v, penalties d !! "high_frequency" = Some v -> (0 <= v <= 20)%Q).
Proof.
  intros (Htc & _ & Hage & Hdc & Hs & _) Hd.
  destruct (breakdown_lookup m d Hd) as (-> & -> & -> & -> & -> & -> & ->).
  split; [|split; [|split; [|split; [|split; [|split]]]]].
  - intros v [= <-]. pose proof (age_bonus_range m Hage) as [H1 H2].
    split; [apply (round2Q_lower 0) | apply (round2Q_upper 15)]; assumption.
  - destruct (0 <? transaction_count m); [|discriminate].
    intros v [= <-]. destruct (success_rate_bonus_range m Hs) as [H1 H2].
    split; [apply (round2Q_lower 0); assumption|].
    intros Hle. apply (round2Q_upper 20). auto.
  - intros v [= <-]. apply volume_bonus_range.
  - destruct (Qle_bool (1 # 10) (frequency_per_day m)
              && Qle_bool (frequency_per_day m) 5) eqn:Hf; [|discriminate].
    intros v [= <-]. pose proof (frequency_bonus_range m Hf) as [H1 H2].
    split; [apply (round2Q_lower 2) | apply (round2Q_upper 10)]; assumption.
  - destruct (Z.ltb_spec 0 (dispute_count m)); [|discriminate].
    intros v [= <-]. apply dispute_penalty_range. assumption.
  - destruct (account_age_days m <? 30); [|discriminate].
    intros v [= <-]. pose proof (new_account_penalty_range m Hage) as [H1 H2].
    split; [apply (round2Q_lower 0) | apply (round2Q_upper 10)]; assumption.
  - destruct (Qlt_bool 10 (frequency_per_day m)); [|discriminate].
    intros v [= <-]. pose proof (high_frequency_penalty_range m) as [H1 H2].
    split; [apply (round2Q_lower 0) | apply (round2Q_upper 20)]; assumption.
Qed.

Lemma breakdown_within_caps_witness :
  exists d, get_score_details low_trust = Ret d /\
    forall v, penalties d !! "disputes" = Some v -> (5 <= v <= 30)%Q.
Proof.
  destruct (ScoreFacts.get_score_details_sum low_trust) as (d & Hd & _);
    [cbn; lia | range_now |].
  exists d. split; [assumption|].
  apply (breakdown_within_caps low_trust d); [valid_now | assumption].
Defined.

Lemma volume_bonus_saturated (m : UserMetrics) :
  2154 <= transaction_count m -> volume_bonus m = of_Q 10.
Proof.
  intros H. unfold volume_bonus, minQ.
  match goal with |- (if ?c then _ else _) = _ => assert (E : c = false) end;
    [|rewrite E; reflexivity].
  apply not_true_is_false. unfold leQ. cbn [rat arg scale].
  change (Qred (10 - 0 * inject_Z 3)) with 10%Q.
  rewrite le10_spec. cbn [Qnum Qden]. intros [_ Hle].
  rewrite Pos2Z.inj_pow, Z.pow_1_r, Z2Pos.id in Hle by lia.
  assert (H3 : 2155 ^ 3 <= (Z.max (transaction_count m) 1 + 1) ^ 3)
    by (apply Z.pow_le_mono_l; lia).
  change (Z.pos 3) with 3 in Hle.
  assert (10 ^ 10 < 2155 ^ 3) by reflexivity. lia.
Qed.

(** From 2154 transactions on, the volume factor of the breakdown is 10
    whatever the count. *)
Theorem volume_factor_saturates (m : UserMetrics) (d : ScoreDetails) :
  2154 <= transaction_count m -> get_score_details m = Ret d ->
  exists v, factors d !! "transaction_volume" = Some v /\ (v == 10)%Q.
Proof.
  intros H Hd.
  destruct (breakdown_lookup m d Hd) as (_ & _ & -> & _).
  rewrite (volume_bonus_saturated m H). eexists. split; reflexivity.
Qed.

Lemma volume_factor_saturates_witness :
  exists d, get_score_details tie_user = Ret d /\
    exists v, factors d !! "transaction_volume" = Some v /\ (v == 10)%Q.
Proof.
  destruct (ScoreFacts.get_score_details_sum tie_user) as (d & Hd & _);
    [cbn; lia | range_now |].
  exists d. split; [assumption|].
  apply (volume_factor_saturates tie_user d); [cbn; lia | assumption].
Defined.

Lemma sixth (x : Q) : (x / 6 == x * (1 # 6))%Q.
Proof. field. Qed.

Lemma low_variance_bonus_nonneg (m : UserMetrics) :
  (0 <= low_variance_bonus m)%Q.
Proof.
  unfold low_variance_bonus. destruct (variance_score m) as [v|]; [|lra].
  destruct (Qlt_bool v 30) eqn:H; [|lra].
  apply Qlt_bool_iff in H. rewrite sixth. lra.
Qed.

Lemma frequency_bonus_nonneg (m : UserMetrics) : (0 <= frequency_bonus m)%Q.
Proof.
  destruct (Qle_bool (1 # 10) (frequency_per_day m)
            && Qle_bool (frequency_per_day m) 5) eqn:H.
  - pose proof (frequency_bonus_range m H). lra.
  - unfold frequency_bonus. rewrite H. lra.
Qed.

Lemma volume_bonus_rat_nonneg (m : UserMetrics) :
  (0 <= rat (volume_bonus m))%Q.
Proof.
  unfold volume_bonus, minQ. destruct (leQ _ 10); cbn [rat scale of_Q]; lra.
Qed.

Lemma clean_record_sum (m : UserMetrics) :
  valid m -> dispute_count m = 0 -> 30 <= account_age_days m ->
  (frequency_per_day m <= 5)%Q ->
  50 <= round (score_sum m).
Proof.
  intros (_ & _ & Hage & _ & Hs & _) Hd H30 Hf.
  eapply Z.le_trans; [|apply round_ge_floor].
  rewrite <- (Qfloor_Z 50). apply Qfloor_resp_le.
  unfold score_sum. cbn [rat addQ].
  pose proof (volume_bonus_rat_nonneg m).
  pose proof (age_bonus_range m Hage) as [? _].
  pose proof (success_rate_bonus_range m Hs) as [? _].
  pose proof (frequency_bonus_nonneg m).
  pose proof (low_variance_bonus_nonneg m).
  assert (E1 : dispute_penalty m = 0%Q)
    by (unfold dispute_penalty; rewrite Hd; reflexivity).
  assert (E2 : new_account_penalty m = 0%Q).
  { unfold new_account_penalty.
    rewrite (proj2 (Z.ltb_ge _ _)) by lia. reflexivity. }
  assert (E3 : Qlt_bool 10 (frequency_per_day m) = false).
  { apply not_true_is_false. rewrite Qlt_bool_iff. lra. }
  assert (E4 : Qlt_bool 5 (frequency_per_day m) = false).
  { apply not_true_is_false. rewrite Qlt_bool_iff. lra. }
  unfold high_frequency_penalty, wash_trading_penalty.
  rewrite E1, E2, E3, E4, andb_false_r.
  change (inject_Z 50) with 50%Q. lra.
Qed.

(** A record without disputes, with an account of at least 30 days and at
    most 5 transactions per day: a score that the engine returns is at
    least 50, so its tier is never BLOCKED; and the engine does return one
    when the counts do not exceed [10^300]. *)
Theorem clean_record_never_blocked (m : UserMetrics) :
  valid m -> dispute_count m = 0 -> 30 <= account_age_days m ->
  (frequency_per_day m <= 5)%Q ->
  (forall s, calculate_score m = Ret s ->
             50 <= s /\ Backend.get_tier_from_score s <> "BLOCKED") /\
  (moderate m -> exists s, calculate_score m = Ret s).
Proof.
  intros Hv Hd H30 Hf. split.
  - intros s Hs. apply calculate_score_ret in Hs as [_ ->].
    pose proof (clean_record_sum m Hv Hd H30 Hf) as H50.
    assert (Hc : 50 <= clamp (round (score_sum m))) by (unfold clamp; lia).
    split; [assumption|].
    unfold Backend.get_tier_from_score.
    destruct (80 <=? clamp (round (score_sum m))); [discriminate|].
    rewrite (proj2 (Z.leb_le _ _)) by assumption. discriminate.
  - intros Hm. eexists. apply calculate_score_returns; assumption.
Qed.

Lemma clean_record_never_blocked_witness :
  (forall s, calculate_score no_activity = Ret s ->
             50 <= s /\ Backend.get_tier_from_score s <> "BLOCKED") /\
  (moderate no_activity -> exists s, calculate_score no_activity = Ret s).
Proof.
  apply (clean_record_never_blocked no_activity);
    [valid_now | reflexivity | cbn; lia | unfold Qle; cbn; lia].
Defined.

End ScoreProperties.

(** * Further properties of the endpoints *)

Module BackendProperties.
Import Backend.

(** [push_score] answers with the 400 error exactly for the scores outside
    0..100, whatever the connection state. *)
Theorem push_score_range_check (state : BlockchainState)
    (request : PushScoreRequest) :
  (~ 0 <= score request <= 100 ->
   push_score state request =
     HTTPError {| status_code := 400;
                  detail := "Score must be between 0 and 100" |}) /\
  (forall e, push_score state request = HTTPError e ->
             ~ 0 <= score request <= 100).
Proof.
  unfold push_score.
  destruct (Z.leb_spec 0 (score request)), (Z.leb_spec (score request) 100);
    cbn [andb negb]; (split; [intros; try reflexivity; lia|]).
  - intros e. destruct (connected state); discriminate.
  - intros; lia.
  - intros; lia.
  - intros; lia.
Qed.

Lemma push_score_range_check_witness :
  push_score blockchain_state {| wallet_address := "0xabc"; score := 101 |} =
    HTTPError {| status_code := 400;
                 detail := "Score must be between 0 and 100" |}.
Proof.
  apply (proj1 (push_score_range_check blockchain_state
                  {| wallet_address := "0xabc"; score := 101 |})).
  cbn. lia.
Defined.

(** A response of [push_score] never reports a failure: it has
    [success = True], echoes the wallet address and the score, which is in
    range, and lacks a transaction hash exactly when the state is not
    connected. *)
Theorem push_score_response (state : BlockchainState)
    (request : PushScoreRequest) (response : PushScoreResponse) :
  push_score state request = Ok response ->
  success response = true /\
  r_wallet_address response = wallet_address request /\
  r_score response = score request /\
  0 <= r_score response <= 100 /\
  (transaction_hash response = None <-> connected state = false).
Proof.
  unfold push_score.
  destruct (Z.leb_spec 0 (score request)), (Z.leb_spec (score request) 100);
    cbn [andb negb]; try discriminate.
  destruct (connected state); cbn [negb]; intros [= <-]; cbn;
    repeat split; try lia; discriminate.
Qed.

Lemma push_score_response_witness :
  let response :=
    {| success := true; r_wallet_address := "0xabc"; r_score := 42;
       message := "Score pushed to blockchain";
       transaction_hash := Some "0x..." |} in
  success response = true /\
  r_wallet_address response = "0xabc" /\
  r_score response = 42 /\
  0 <= r_score response <= 100 /\
  (transaction_hash response = None <-> true = false).
Proof.
  intros response.
  apply (push_score_response connected_state
           {| wallet_address := "0xabc"; score := 42 |} response).
  reflexivity.
Defined.

Lemma evaluate_user_ok (request : EvaluateRequest) (s : Z) :
  ScoreService.calculate_score (metrics_of request) = Ret s ->
  exists d,
    ScoreService.get_score_details (metrics_of request) = Ret d /\
    0 <= s <= 100 /\
    evaluate_user request =
      Ok {| e_wallet_address := q_wallet_address request;
            e_score := s;
            e_tier := get_tier_from_score s;
            e_details := d |}.
Proof.
  intros Hs. assert (Hs' := Hs).
  apply ScoreFacts.calculate_score_ret in Hs' as [Hr E].
  pose proof (ScoreFacts.clamp_range
                (Real.round (ScoreService.score_sum (metrics_of request))))
    as Hc.
  rewrite <- E in Hc.
  destruct (ScoreFacts.get_score_details_cases (metrics_of request))
    as [[_ Hd]|[R _]];
    [|destruct (R (ScoreFacts.in_float_range_details _ Hr))].
  eexists. split; [exact Hd|]. split; [exact Hc|].
  unfold evaluate_user. fold (metrics_of request). rewrite Hs, Hd.
  cbn [mbind result_bind]. unfold new_EvaluateResponse.
  rewrite (proj2 (Z.leb_le _ _)), (proj2 (Z.leb_le _ _)) by lia.
  reflexivity.
Qed.

Lemma evaluate_user_error (request : EvaluateRequest) (e : exn) :
  ScoreService.calculate_score (metrics_of request) = Raise e ->
  evaluate_user request =
    HTTPError {| status_code := 500;
                 detail := "Scoring error: " +:+ exn_str e |}.
Proof.
  intros He. unfold evaluate_user. fold (metrics_of request). rewrite He.
  reflexivity.
Qed.

(** [evaluate_user] on a request whose score [calculate_score] returns: the
    response carries that score, which is in range, the tier of that score,
    the breakdown of [get_score_details], which returns as well, and the
    wallet address of the request.  On a request for which
    [calculate_score] raises, the answer is the 500 error with the message
    of the exception.  The score is returned when the request meets the
    constraints of its model and the counts do not exceed [10^300]. *)
Theorem evaluate_user_answers (request : EvaluateRequest) :
  (forall s,
     ScoreService.calculate_score (metrics_of request) = Ret s ->
     exists d,
       ScoreService.get_score_details (metrics_of request) = Ret d /\
       0 <= s <= 100 /\
       evaluate_user request =
         Ok {| e_wallet_address := q_wallet_address request;
               e_score := s;
               e_tier := get_tier_from_score s;
               e_details := d |}) /\
  (forall e,
     ScoreService.calculate_score (metrics_of request) = Raise e ->
     evaluate_user request =
       HTTPError {| status_code := 500;
                    detail := "Scoring error: " +:+ exn_str e |}) /\
  (ScoreService.valid (metrics_of request) ->
   ScoreService.moderate (metrics_of request) ->
   exists s, ScoreService.calculate_score (metrics_of request) = Ret s).
Proof.
  split; [exact (evaluate_user_ok request)|].
  split; [exact (evaluate_user_error request)|].
  intros Hv Hm. eexists.
  apply ScoreFacts.calculate_score_returns; assumption.
Qed.

Lemma evaluate_user_answers_witness :
  exists d,
    ScoreService.get_score_details (metrics_of example_request) = Ret d /\
    0 <= 95 <= 100 /\
    evaluate_user example_request =
      Ok {| e_wallet_address := q_wallet_address example_request;
            e_score := 95;
            e_tier := get_tier_from_score 95;
            e_details := d |}.
Proof.
  apply (proj1 (evaluate_user_answers example_request) 95).
  vm_compute. reflexivity.
Defined.

(** An account age of [10^400] days passes the validation of the request
    and is answered with the 500 error. *)
Example evaluate_user_overflow :
  evaluate_user ancient_request =
    HTTPError
      {| status_code := 500;
         detail := "Scoring error: integer division result too large for a float" |}.
Proof. vm_compute. reflexivity. Qed.

(** [evaluate_and_push] on a request whose score [calculate_score] returns
    answers with a successful response: neither the range check of
    [push_score] nor the validation of the request it builds can fail on
    such a score.  The message names that score and its tier before the
    message of [push_score].  On a request for which [calculate_score]
    raises, the 500 error of [evaluate_user] passes through. *)
Theorem evaluate_and_push_answers (state : BlockchainState)
    (request : EvaluateRequest) :
  (forall s,
     ScoreService.calculate_score (metrics_of request) = Ret s ->
     evaluate_and_push state request =
       Ret (Ok {| success := true;
                  r_wallet_address := q_wallet_address request;
                  r_score := s;
                  message :=
                    "Evaluated (score: " +:+ pretty s
                    +:+ ", tier: " +:+ get_tier_from_score s +:+ ") - "
                    +:+ (if connected state
                         then "Score pushed to blockchain"
                         else "Score recorded (blockchain not connected - stub mode)");
                  transaction_hash :=
                    if connected state then Some "0x..." else None |})) /\
  (forall e,
     ScoreService.calculate_score (metrics_of request) = Raise e ->
     evaluate_and_push state request =
       Ret (HTTPError {| status_code := 500;
                         detail := "Scoring error: " +:+ exn_str e |})) /\
  (ScoreService.valid (metrics_of request) ->
   ScoreService.moderate (metrics_of request) ->
   exists s, ScoreService.calculate_score (metrics_of request) = Ret s).
Proof.
  split; [|split].
  - intros s Hs.
    destruct (evaluate_user_ok request s Hs) as (d & _ & Hr & He).
    unfold evaluate_and_push. rewrite He. cbn [e_score e_tier].
    unfold new_PushScoreRequest, push_score.
    rewrite (proj2 (Z.leb_le _ _)), (proj2 (Z.leb_le _ _)) by lia.
    cbn [andb mbind result_bind score wallet_address negb].
    rewrite (proj2 (Z.leb_le _ _)), (proj2 (Z.leb_le _ _)) by lia.
    cbn [andb negb]. destruct (connected state); reflexivity.
  - intros e He. unfold evaluate_and_push.
    rewrite (evaluate_user_error request e He). reflexivity.
  - intros Hv Hm. eexists.
    apply ScoreFacts.calculate_score_returns; assumption.
Qed.

Lemma evaluate_and_push_answers_witness :
  evaluate_and_push blockchain_state example_request =
    Ret (Ok {| success := true;
               r_wallet_address := q_wallet_address example_request;
               r_score := 95;
               message :=
                 "Evaluated (score: " +:+ pretty 95
                 +:+ ", tier: " +:+ get_tier_from_score 95 +:+ ") - "
                 +:+ (if connected blockchain_state
                      then "Score pushed to blockchain"
                      else "Score recorded (blockchain not connected - stub mode)");
               transaction_hash :=
                 if connected blockchain_state then Some "0x..." else None |}).
Proof.
  apply (proj1 (evaluate_and_push_answers blockchain_state example_request) 95).
  vm_compute. reflexivity.
Defined.

End BackendProperties.

(** * Further properties of the oracle listener *)

Module OracleProperties.
Import OracleListener.

Section Lifecycle.
Variable to_checksum_address : string -> result string.
Variable new_web3 : string -> result Web3.
Variable is_connected : Web3 -> result bool.
Variable chain_id : Web3 -> result Z.
Variable block_number : Web3 -> result Z.
Variable from_key : Web3 -> string -> result Account.
Variable eth_contract : Web3 -> string -> json -> result Contract.
Variable read_json : string -> result json.
Variable reputation_call : Contract -> result string.

Ltac step :=
  match goal with
  | |- context [match ?c with Ret _ => _ | Raise _ => _ end] =>
      destruct c eqn:?
  | |- context [if negb ?b then _ else _] => destruct b eqn:?
  | |- context [match truthy ?k with Some _ => _ | None => _ end] =>
      destruct (truthy k) eqn:?
  end;
  cbn [negb fst snd w3 private_key rpc_url oracle_address oracle_contract
       account].

Ltac run :=
  cbv [mbind action_bind mret action_ret attr call assign_w3 assign_account
       assign_oracle_contract except_false];
  cbn [negb fst snd w3 private_key rpc_url oracle_address oracle_contract
       account];
  repeat step.

(** [connect] touches only [w3] and [account].  When the handle cannot be
    built the listener is unchanged; once it is built, [w3] holds it even
    if [connect] then returns [False]. *)
Theorem connect_frame (self : OracleListener) :
  let after := (connect new_web3 is_connected chain_id block_number from_key
                  self).1 in
  rpc_url after = rpc_url self /\
  oracle_address after = oracle_address self /\
  private_key after = private_key self /\
  oracle_contract after = oracle_contract self /\
  (forall e, new_web3 (rpc_url self) = Raise e -> after = self) /\
  (forall w, new_web3 (rpc_url self) = Ret w -> w3 after = Some w).
Proof.
  unfold connect. run; repeat split; intros; congruence.
Qed.

(** When [connect] returns [True], the handle was built, the node
    answered that it is connected and gave its chain id and block number,
    and [w3] holds the handle; with a non-empty private key the account is
    the one derived from it, without one the account is left as it was. *)
Theorem connect_success (self after : OracleListener) :
  connect new_web3 is_connected chain_id block_number from_key self
    = (after, true) ->
  exists w,
    new_web3 (rpc_url self) = Ret w /\
    is_connected w = Ret true /\
    (exists c, chain_id w = Ret c) /\
    (exists b, block_number w = Ret b) /\
    w3 after = Some w /\
    match truthy (private_key self) with
    | Some key => exists a, from_key w key = Ret a /\ account after = Some a
    | None => account after = account self
    end.
Proof.
  unfold connect. run; intros [= <-]; eexists; repeat split; eauto.
Qed.

(** [load_contract] returns [True] only if the listener has a handle and a
    non-empty oracle address, the file was read as a JSON object, and web3
    built a contract from the checksummed address and the ABI, which is the
    member ["abi"] of the object if it has one and the whole object
    otherwise.  The listener then holds that contract and is otherwise
    unchanged. *)
Theorem load_contract_success (abi_path : string)
    (self after : OracleListener) :
  load_contract to_checksum_address eth_contract read_json abi_path self
    = (after, true) ->
  exists w addr members checksummed contract,
    w3 self = Some w /\
    truthy (oracle_address self) = Some addr /\
    read_json abi_path = Ret (JObject members) /\
    to_checksum_address addr = Ret checksummed /\
    eth_contract w checksummed
      (default (JObject members) (members !! "abi")) = Ret contract /\
    oracle_contract after = Some contract /\
    w3 after = w3 self /\ account after = account self /\
    rpc_url after = rpc_url self /\
    oracle_address after = oracle_address self /\
    private_key after = private_key self.
Proof.
  unfold load_contract.
  destruct (w3 self) as [w|] eqn:Hw; [|discriminate].
  destruct (truthy (oracle_address self)) as [addr|] eqn:Ha; [|discriminate].
  cbv [mbind action_bind mret action_ret call assign_oracle_contract
       except_false].
  destruct (read_json abi_path) as [j|] eqn:Hj; [|discriminate].
  destruct j as [| | | | |members]; cbn [json_get]; try discriminate.
  destruct (members !! "abi") as [abi|] eqn:Habi;
    (destruct (to_checksum_address addr) as [a|] eqn:Hc; [|discriminate]);
    match goal with
    | |- context [eth_contract ?x ?y ?z] =>
        destruct (eth_contract x y z) as [c|] eqn:He; [|discriminate]
    end;
    intros [= <-]; exists w, addr, members, a, c; rewrite Habi;
    cbn [default from_option id oracle_contract w3 account rpc_url
         oracle_address private_key];
    repeat split; first [assumption | reflexivity].
Qed.

(** When [load_contract] returns [False] the listener is unchanged: a
    contract loaded earlier stays in place. *)
Theorem load_contract_failure (abi_path : string)
    (self after : OracleListener) :
  load_contract to_checksum_address eth_contract read_json abi_path self
    = (after, false) ->
  after = self.
Proof.
  unfold load_contract.
  destruct (w3 self) as [w|]; [|congruence].
  destruct (truthy (oracle_address self)) as [addr|]; [|congruence].
  cbv [mbind action_bind mret action_ret call assign_oracle_contract
       except_false].
  destruct (read_json abi_path) as [j|]; [|congruence].
  destruct (json_get j "abi" j); [|congruence].
  destruct (to_checksum_address addr); [|congruence].
  destruct (eth_contract _ _ _); [discriminate | congruence].
Qed.

(** A file whose JSON value is not an object, such as a bare ABI array, is
    refused: [load_contract] returns [False] and changes nothing. *)
Theorem load_contract_needs_object (abi_path : string)
    (self : OracleListener) (j : json) :
  read_json abi_path = Ret j ->
  (forall members, j <> JObject members) ->
  load_contract to_checksum_address eth_contract read_json abi_path self
    = (self, false).
Proof.
  intros Hj Hno. unfold load_contract.
  destruct (w3 self) as [w|]; [|reflexivity].
  destruct (truthy (oracle_address self)) as [addr|]; [|reflexivity].
  cbv [mbind action_bind mret action_ret call assign_oracle_contract
       except_false].
  rewrite Hj. destruct j; try reflexivity. destruct (Hno members eq_refl).
Qed.

(** [get_score] returns [None] for every listener and every address: it
    never yields a score and never raises. *)
Theorem get_score_none (self : OracleListener) (user_address : string) :
  get_score to_checksum_address reputation_call self user_address = Ret None.
Proof.
  unfold get_score. destruct (oracle_contract self); [|reflexivity].
  destruct (to_checksum_address user_address);
    cbn [mbind result_bind try_except]; [|reflexivity].
  destruct (reputation_call _); reflexivity.
Qed.

Lemma load_contract_keeps_account (abi_path : string)
    (self : OracleListener) :
  account (load_contract to_checksum_address eth_contract read_json
             abi_path self).1 = account self.
Proof.
  unfold load_contract.
  destruct (w3 self) as [w|]; [|reflexivity].
  destruct (truthy (oracle_address self)) as [addr|]; [|reflexivity].
  cbv [mbind action_bind mret action_ret call assign_oracle_contract
       except_false].
  destruct (read_json abi_path) as [j|]; [|reflexivity].
  destruct (json_get j "abi" j); [|reflexivity].
  destruct (to_checksum_address addr); [|reflexivity].
  destruct (eth_contract _ _ _); reflexivity.
Qed.

Lemma connect_keeps_account (self : OracleListener) :
  truthy (private_key self) = None ->
  account (connect new_web3 is_connected chain_id block_number from_key
             self).1 = account self.
Proof.
  intros Hk. unfold connect. run; first [reflexivity | congruence].
Qed.

(** A listener created without a private key (or with an empty one) never
    pushes: whatever [connect] and [load_contract] achieve, the account
    stays unset and [push_score] returns [None]. *)
Theorem no_key_never_pushes (url abi_path user_address : string)
    (oracle key : option string) (score : Z) :
  truthy key = None ->
  push_score to_checksum_address
    (load_contract to_checksum_address eth_contract read_json abi_path
       (connect new_web3 is_connected chain_id block_number from_key
          (init url oracle key)).1).1
    user_address score = Ret None.
Proof.
  intros Hk.
  set (l1 := (connect new_web3 is_connected chain_id block_number from_key
                (init url oracle key)).1).
  assert (H1 : account l1 = None)
    by (unfold l1; rewrite connect_keeps_account; [reflexivity | exact Hk]).
  set (l2 := (load_contract to_checksum_address eth_contract read_json
                abi_path l1).1).
  assert (H2 : account l2 = None)
    by (unfold l2; rewrite load_contract_keeps_account; assumption).
  unfold push_score. rewrite H2. destruct (oracle_contract l2); reflexivity.
Qed.

(** After a [connect] that returned [True] on a listener with a non-empty
    private key and a [load_contract] that returned [True], the listener
    has a handle, a contract and an account, so [push_score] gets past its
    configuration check. *)
Theorem ready_after_connect_and_load (abi_path : string)
    (self l1 l2 : OracleListener) (key : string) :
  truthy (private_key self) = Some key ->
  connect new_web3 is_connected chain_id block_number from_key self
    = (l1, true) ->
  load_contract to_checksum_address eth_contract read_json abi_path l1
    = (l2, true) ->
  is_Some (w3 l2) /\ is_Some (oracle_contract l2) /\ is_Some (account l2).
Proof.
  intros Hk. unfold connect. run; try discriminate; try congruence.
  intros [= <-]. unfold load_contract. cbn [w3 oracle_address].
  destruct (truthy (oracle_address self)) as [addr|]; [|discriminate].
  cbv [mbind action_bind mret action_ret call assign_oracle_contract
       except_false].
  destruct (read_json abi_path) as [j|]; [|discriminate].
  destruct (json_get j "abi" j); [|discriminate].
  destruct (to_checksum_address addr); [|discriminate].
  destruct (eth_contract _ _ _); [|discriminate].
  intros [= <-]. cbn [w3 oracle_contract account]. eauto.
Qed.

End Lifecycle.

Lemma connect_frame_witness :
  w3 (connect dev_new_web3 dev_is_connected dev_chain_id dev_block_number
        dev_from_key dev_listener).1 = Some (local_node 1).
Proof.
  apply (connect_frame dev_new_web3 dev_is_connected dev_chain_id
           dev_block_number dev_from_key dev_listener).
  reflexivity.
Defined.

Lemma connect_success_witness :
  exists w,
    dev_new_web3 (rpc_url dev_listener) = Ret w /\
    dev_is_connected w = Ret true /\
    (exists c, dev_chain_id w = Ret c) /\
    (exists b, dev_block_number w = Ret b) /\
    w3 (connect dev_new_web3 dev_is_connected dev_chain_id dev_block_number
          dev_from_key dev_listener).1 = Some w /\
    exists a, dev_from_key w "0xkey" = Ret a /\
      account (connect dev_new_web3 dev_is_connected dev_chain_id
                 dev_block_number dev_from_key dev_listener).1 = Some a.
Proof.
  apply (connect_success dev_new_web3 dev_is_connected dev_chain_id
           dev_block_number dev_from_key dev_listener).
  reflexivity.
Defined.

Lemma load_contract_success_witness :
  let l1 := (connect dev_new_web3 dev_is_connected dev_chain_id
               dev_block_number dev_from_key dev_listener).1 in
  let l2 := (load_contract Ret dev_eth_contract dev_read_json
               "OracleMock.json" l1).1 in
  exists w addr members checksummed contract,
    w3 l1 = Some w /\
    truthy (oracle_address l1) = Some addr /\
    dev_read_json "OracleMock.json" = Ret (JObject members) /\
    Ret addr = Ret checksummed /\
    dev_eth_contract w checksummed
      (default (JObject members) (members !! "abi")) = Ret contract /\
    oracle_contract l2 = Some contract /\
    w3 l2 = w3 l1 /\ account l2 = account l1 /\
    rpc_url l2 = rpc_url l1 /\
    oracle_address l2 = oracle_address l1 /\
    private_key l2 = private_key l1.
Proof.
  intros l1 l2.
  apply (load_contract_success Ret dev_eth_contract dev_read_json
           "OracleMock.json" l1 l2).
  reflexivity.
Defined.

Lemma load_contract_failure_witness :
  (load_contract Ret dev_eth_contract dev_read_json "missing.json"
     (ready_listener 1)).1 = ready_listener 1.
Proof.
  apply (load_contract_failure Ret dev_eth_contract dev_read_json
           "missing.json" (ready_listener 1)).
  reflexivity.
Defined.

Lemma load_contract_needs_object_witness :
  load_contract Ret dev_eth_contract dev_read_json "abi.json"
    (ready_listener 1) = (ready_listener 1, false).
Proof.
  apply (load_contract_needs_object Ret dev_eth_contract dev_read_json
           "abi.json" (ready_listener 1) (JArray []));
    [reflexivity | discriminate].
Defined.

Lemma no_key_never_pushes_witness :
  push_score Ret
    (load_contract Ret dev_eth_contract dev_read_json "OracleMock.json"
       (connect dev_new_web3 dev_is_connected dev_chain_id dev_block_number
          dev_from_key
          (init "http://127.0.0.1:8545"
                (Some "0x5FbDB2315678afecb367f032d93F642f64180aa3")
                (Some ""))).1).1
    "0xabc" 85 = Ret None.
Proof.
  apply (no_key_never_pushes Ret dev_new_web3 dev_is_connected dev_chain_id
           dev_block_number dev_from_key dev_eth_contract dev_read_json).
  reflexivity.
Defined.

Lemma ready_after_connect_and_load_witness :
  let l1 := (connect dev_new_web3 dev_is_connected dev_chain_id
               dev_block_number dev_from_key dev_listener).1 in
  let l2 := (load_contract Ret dev_eth_contract dev_read_json
               "OracleMock.json" l1).1 in
  is_Some (w3 l2) /\ is_Some (oracle_contract l2) /\ is_Some (account l2).
Proof.
  intros l1 l2.
  apply (ready_after_connect_and_load Ret dev_new_web3 dev_is_connected
           dev_chain_id dev_block_number dev_from_key dev_eth_contract
           dev_read_json "OracleMock.json" dev_listener l1 l2 "0xkey");
    reflexivity.
Defined.

End OracleProperties.
